(** * Sopel TLD plugin (sopel/modules/tld.py): model and verification

    The development follows the plugin top-down in source order:
    Python text primitives, [setup], the [WikipediaTLDListParser] callbacks
    and [get_processed_data], [_update_tld_data], and the [gettld] command.

    Python [str] values are sequences of Unicode code points; dictionaries
    whose iteration order is observable (records) are insertion-ordered
    association lists, the others are finite maps. *)

From Stdlib Require Import ZArith NArith Ascii String.
From stdpp Require Import base option list gmap.

Local Open Scope list_scope.

(** ** Python text *)

Definition pystr := list N.

(** An ASCII literal as a Python string; other characters are written as
    code points ([EM_DASH], [ELLIPSIS]). *)
Fixpoint py (s : string) : pystr :=
  match s with
  | EmptyString => []
  | String c r => N_of_ascii c :: py r
  end.

Definition streq (a b : pystr) : bool := bool_decide (a = b).

(** [Py_UNICODE_ISSPACE]: the characters removed by [str.strip()] and
    excluded by the regular-expression class [\S]. *)
Definition isspace (c : N) : bool :=
  ((9 <=? c) && (c <=? 13) || (28 <=? c) && (c <=? 32) || (c =? 133)
   || (c =? 160) || (c =? 5760) || (8192 <=? c) && (c <=? 8202)
   || (c =? 8232) || (c =? 8233) || (c =? 8239) || (c =? 8287)
   || (c =? 12288))%N.

(** [[A-Za-z0-9]] of [r_idn]. *)
Definition isalnum_ascii (c : N) : bool :=
  ((65 <=? c) && (c <=? 90) || (97 <=? c) && (c <=? 122)
   || (48 <=? c) && (c <=? 57))%N.

Fixpoint dropwhile {A} (f : A -> bool) (l : list A) : list A :=
  match l with
  | [] => []
  | x :: t => if f x then dropwhile f t else l
  end.

Fixpoint takewhile {A} (f : A -> bool) (l : list A) : list A :=
  match l with
  | [] => []
  | x :: t => if f x then x :: takewhile f t else []
  end.

Definition lstrip_by (f : N -> bool) (s : pystr) : pystr := dropwhile f s.
Definition rstrip_by (f : N -> bool) (s : pystr) : pystr :=
  reverse (dropwhile f (reverse s)).
Definition strip_by (f : N -> bool) (s : pystr) : pystr :=
  rstrip_by f (lstrip_by f s).

(** [s.strip()] *)
Definition strip (s : pystr) : pystr := strip_by isspace s.

(** [s.strip(chars)] and [s.lstrip(chars)] *)
Definition inchars (chars : pystr) (c : N) : bool := bool_decide (c ∈ chars).
Definition strip_chars (chars s : pystr) : pystr := strip_by (inchars chars) s.
Definition lstrip_chars (chars s : pystr) : pystr := lstrip_by (inchars chars) s.

(** [s.startswith(prefix)] *)
Fixpoint startswith (s prefix : pystr) : bool :=
  match prefix, s with
  | [], _ => true
  | p :: pt, c :: t => (p =? c)%N && startswith t pt
  | _ :: _, [] => false
  end.

(** [sub in s] *)
Fixpoint contains (sub s : pystr) : bool :=
  startswith s sub ||
  match s with
  | [] => false
  | _ :: t => contains sub t
  end.

(** [s.replace(old, new)]: left-to-right, non-overlapping.  [skip] counts the
    characters of the current occurrence of [old] still to be consumed. *)
Fixpoint replace_from (old new : pystr) (skip : nat) (s : pystr) : pystr :=
  match s with
  | [] => []
  | c :: t =>
      match skip with
      | S k => replace_from old new k t
      | O =>
          if startswith s old
          then new ++ replace_from old new (pred (length old)) t
          else c :: replace_from old new O t
      end
  end.

Definition replace (s old new : pystr) : pystr :=
  match old with
  | [] => new ++ flat_map (fun c => c :: new) s
  | _ => replace_from old new 0 s
  end.

(** [sep.join(items)] *)
Fixpoint join (sep : pystr) (items : list pystr) : pystr :=
  match items with
  | [] => []
  | [x] => x
  | x :: t => x ++ sep ++ join sep t
  end.

(** [s.splitlines()]: the line boundaries of [str.splitlines], with CR LF
    counted as one; [cur] is the current line, reversed. *)
Definition islinebreak (c : N) : bool :=
  ((10 <=? c) && (c <=? 13) || (28 <=? c) && (c <=? 30) || (c =? 133)
   || (c =? 8232) || (c =? 8233))%N.

Fixpoint splitlines_from (cur s : pystr) : list pystr :=
  match s with
  | [] => match cur with [] => [] | _ => [reverse cur] end
  | c :: t =>
      if islinebreak c then
        reverse cur ::
        match t with
        | c' :: t' =>
            if (c =? 13)%N && (c' =? 10)%N then splitlines_from [] t'
            else splitlines_from [] t
        | [] => splitlines_from [] t
        end
      else splitlines_from (c :: cur) t
  end.

Definition splitlines (s : pystr) : list pystr := splitlines_from [] s.

(** ** Exceptions *)

Inductive exn :=
| TypeError | IndexError | AttributeError | KeyError | ValueError
| UnicodeError | RequestException.

Inductive res (A : Type) :=
| Ok (a : A)
| Raise (e : exn).
Arguments Ok {A} a.
Arguments Raise {A} e.

Definition res_bind {A B} (r : res A) (k : A -> res B) : res B :=
  match r with
  | Ok a => k a
  | Raise e => Raise e
  end.

(** ** Callbacks delivered by [HTMLParser] *)

Inductive event :=
| StartTag (tag : pystr) (attrs : list (pystr * option pystr))
| EndTag (tag : pystr)
| Data (data : pystr).

(** ** Collaborators outside the plugin

    Library functions the plugin calls and whose code is not part of it:
    the [sopel.formatting] control codes, [str.lower], the tokenisation done
    by [HTMLParser.feed]/[close], [encodings.idna.ToASCII] (followed by
    [decode]; [None] is [UnicodeError]) and [sopel.tools.get_sendable_message]. *)
Class Platform := {
  CONTROL_BOLD : pystr;
  CONTROL_ITALIC : pystr;
  str_lower : pystr -> pystr;
  html_events : pystr -> list event;
  idna_ToASCII : pystr -> option pystr;
  get_sendable_message : pystr -> pystr * pystr
}.

(** ** [datetime] and [timedelta]

    Naive datetimes as [datetime.datetime] stores them; subtraction goes
    through the proleptic Gregorian ordinal, as in the standard library. *)

Record datetime := mkdatetime {
  year : Z; month : Z; day : Z;
  hour : Z; minute : Z; second : Z; microsecond : Z
}.

Record timedelta := mktimedelta { days : Z; seconds : Z; microseconds : Z }.

Local Open Scope Z_scope.

Definition is_leap (y : Z) : bool :=
  (y mod 4 =? 0) && (negb (y mod 100 =? 0) || (y mod 400 =? 0)).

Definition days_before_year (y : Z) : Z :=
  let p := y - 1 in p * 365 + p / 4 - p / 100 + p / 400.

Definition days_in_month (y m : Z) : Z :=
  if (m =? 2) then (if is_leap y then 29 else 28)
  else if (m =? 4) || (m =? 6) || (m =? 9) || (m =? 11) then 30
  else 31.

Definition days_before_month (y m : Z) : Z :=
  nth (Z.to_nat m) [0; 0; 31; 59; 90; 120; 151; 181; 212; 243; 273; 304; 334] 0
  + (if (2 <? m) && is_leap y then 1 else 0).

Definition toordinal (d : datetime) : Z :=
  days_before_year (year d) + days_before_month (year d) (month d) + day d.

(** [timedelta(days, seconds, microseconds)] normalises its arguments so that
    [0 <= seconds < 86400] and [0 <= microseconds < 1000000]. *)
Definition new_timedelta (d s us : Z) : timedelta :=
  let total := (d * 86400 + s) * 1000000 + us in
  {| days := total / 86400000000;
     seconds := (total mod 86400000000) / 1000000;
     microseconds := total mod 1000000 |}.

Definition day_seconds (d : datetime) : Z :=
  second d + minute d * 60 + hour d * 3600.

(** [a - b] *)
Definition datetime_sub (a b : datetime) : timedelta :=
  new_timedelta (toordinal a - toordinal b)
                (day_seconds a - day_seconds b)
                (microsecond a - microsecond b).

(** [DATE_FORMAT = '%Y-%m-%d %H:%M:%S'] *)
Definition DATE_FORMAT : pystr := py "%Y-%m-%d %H:%M:%S".

Definition digit_value (c : N) : option Z :=
  if ((48 <=? c) && (c <=? 57))%N then Some (Z.of_N c - 48) else None.

(** Reads exactly [n] decimal digits. *)
Fixpoint read_digits (n : nat) (acc : Z) (s : pystr) : option (Z * pystr) :=
  match n with
  | O => Some (acc, s)
  | S k =>
      match s with
      | c :: t =>
          match digit_value c with
          | Some v => read_digits k (acc * 10 + v) t
          | None => None
          end
      | [] => None
      end
  end.

Definition expect (c : N) (s : pystr) : option pystr :=
  match s with
  | c' :: t => if (c =? c')%N then Some t else None
  | [] => None
  end.

Definition parse_date_format (s : pystr) : option datetime :=
  '(y, s) ← read_digits 4 0 s; s ← expect 45%N s;
  '(m, s) ← read_digits 2 0 s; s ← expect 45%N s;
  '(d, s) ← read_digits 2 0 s; s ← expect 32%N s;
  '(hh, s) ← read_digits 2 0 s; s ← expect 58%N s;
  '(mm, s) ← read_digits 2 0 s; s ← expect 58%N s;
  '(ss, s) ← read_digits 2 0 s;
  match s with
  | [] =>
      if (1 <=? y) && (1 <=? m) && (m <=? 12) && (1 <=? d)
         && (d <=? days_in_month y m) && (hh <=? 23) && (mm <=? 59)
         && (ss <=? 59)
      then Some (mkdatetime y m d hh mm ss 0)
      else None
  | _ => None
  end.

(** [datetime.strptime(s, DATE_FORMAT)], modelled on the text that
    [strftime(DATE_FORMAT)] writes, the only form the plugin stores: four
    digits for the year, two for every other field, one blank between date
    and time.  On that text the result is the library's.  The library also
    reads fields of one digit, runs of white space and other decimal
    digits; the model answers [ValueError] there, and nothing below is
    stated about such text. *)
Definition strptime (s : pystr) : res datetime :=
  match parse_date_format s with
  | Some d => Ok d
  | None => Raise ValueError
  end.

Local Close Scope Z_scope.

(** ** Records and the cached datasets *)

(** A record is a [dict] from field name to value whose insertion order is
    observable when it is rendered. *)
Definition record := list (pystr * pystr).

(** [d[k] = v]: an existing key keeps its position. *)
Fixpoint dict_set (d : record) (k v : pystr) : record :=
  match d with
  | [] => [(k, v)]
  | (k', v') :: t =>
      if streq k' k then (k', v) :: t else (k', v') :: dict_set t k v
  end.

(** [dict(pairs)] *)
Definition dict_of_pairs (l : list (pystr * pystr)) : record :=
  fold_left (fun d kv => dict_set d kv.1 kv.2) l [].

Fixpoint dict_get (d : record) (k : pystr) : option pystr :=
  match d with
  | [] => None
  | (k', v) :: t => if streq k' k then Some v else dict_get t k
  end.

Definition dict_keys (d : record) : list pystr := map fst d.

(** The record index.  Record objects live in [objs] (in allocation order);
    [index] maps a lookup key to the position of its record object, so that
    two keys holding the same object hold the same position. *)
Record TldData := mkTldData {
  objs : list record;
  index : gmap pystr nat
}.

Definition empty_data : TldData := mkTldData [] ∅.

(** [tld_data.get(key, None)] *)
Definition data_get (d : TldData) (key : pystr) : option record :=
  a ← index d !! key; objs d !! a.

(** [bot.memory], once [setup] has run. *)
Record Memory := mkMemory {
  tld_list_cache : list pystr;
  tld_list_cache_updated : datetime;
  tld_data_cache : TldData;
  tld_data_cache_updated : datetime
}.

(** ** [setup] *)

(** The plugin's values in the bot database; [None] when nothing is stored. *)
Record Db := mkDb {
  db_tld_list_cache : option (list pystr);
  db_tld_list_cache_updated : option pystr;
  db_tld_data_cache : option TldData;
  db_tld_data_cache_updated : option pystr
}.

Definition get_plugin_value {A} (stored : option A) (dflt : A) : A :=
  default dflt stored.

Definition setup (db : Db) : res Memory :=
  let l := get_plugin_value (db_tld_list_cache db) [] in
  let lu := get_plugin_value (db_tld_list_cache_updated db)
                             (py "2000-01-01 00:00:00") in
  let d := get_plugin_value (db_tld_data_cache db) empty_data in
  let du := get_plugin_value (db_tld_data_cache_updated db)
                             (py "2000-01-01 00:00:00") in
  res_bind (strptime lu) (fun lu' =>
  res_bind (strptime du) (fun du' =>
  Ok (mkMemory l lu' d du'))).

(** ** [WikipediaTLDListParser] *)

Definition row := list pystr.
Definition table := list row.

(** [self.tables] is a list of tables until [get_processed_data] replaces it
    by the record index; [self.finished] is set by that same assignment and
    nowhere else, so it is read off the field. *)
Inductive tables_field :=
| Raw (ts : list table)
| Processed (d : TldData).

Record Parser := mkParser {
  in_cell : bool;
  skipping : bool;
  current_row : row;
  current_cell : pystr;
  rows : list row;
  tables : tables_field
}.

Definition finished (p : Parser) : bool :=
  match tables p with
  | Raw _ => false
  | Processed _ => true
  end.

(** [WikipediaTLDListParser()] *)
Definition new_parser : Parser := mkParser false true [] [] [] (Raw []).

Definition set_in_cell (b : bool) (p : Parser) : Parser :=
  mkParser b (skipping p) (current_row p) (current_cell p) (rows p)
           (tables p).
Definition set_skipping (b : bool) (p : Parser) : Parser :=
  mkParser (in_cell p) b (current_row p) (current_cell p) (rows p)
           (tables p).
Definition set_current_row (r : row) (p : Parser) : Parser :=
  mkParser (in_cell p) (skipping p) r (current_cell p) (rows p)
           (tables p).
Definition set_current_cell (c : pystr) (p : Parser) : Parser :=
  mkParser (in_cell p) (skipping p) (current_row p) c (rows p)
           (tables p).
Definition set_rows (rs : list row) (p : Parser) : Parser :=
  mkParser (in_cell p) (skipping p) (current_row p) (current_cell p) rs
           (tables p).
Definition set_tables (ts : tables_field) (p : Parser) : Parser :=
  mkParser (in_cell p) (skipping p) (current_row p) (current_cell p) (rows p)
           ts.

Definition is_tag (tag : pystr) (names : list string) : bool :=
  existsb (fun n => streq tag (py n)) names.

Definition BOLD_PLACEHOLDER : pystr := py "<[bold]>".
Definition ITALIC_PLACEHOLDER : pystr := py "<[italic]>".

Section Extractor.
Context `{Platform}.

(** The loop over [attrs] of a [table] start tag.  An attribute without a
    value is delivered as [None], on which [in] raises. *)
Fixpoint table_attrs (attrs : list (pystr * option pystr)) (p : Parser)
  : res Parser :=
  match attrs with
  | [] => Ok p
  | (name, value) :: rest =>
      if streq name (py "class") then
        match value with
        | None => Raise TypeError
        | Some v =>
            table_attrs rest
              (if contains (py "wikitable") v then set_skipping false p
               else p)
        end
      else table_attrs rest p
  end.

Definition handle_starttag (p : Parser) (tag : pystr)
    (attrs : list (pystr * option pystr)) : res Parser :=
  if is_tag tag ["td"; "th"]%string then Ok (set_in_cell true p)
  else if is_tag tag ["sup"]%string then Ok (set_skipping true p)
  else if is_tag tag ["table"]%string then table_attrs attrs p
  else if is_tag tag ["b"; "strong"]%string && in_cell p then
    Ok (set_current_cell (current_cell p ++ BOLD_PLACEHOLDER) p)
  else if is_tag tag ["i"; "em"]%string && in_cell p then
    Ok (set_current_cell (current_cell p ++ ITALIC_PLACEHOLDER) p)
  else Ok p.

(** The text of a finished cell: trimmed, then the placeholders replaced
    by the control codes. *)
Definition clean_cell (text : pystr) : pystr :=
  replace (replace (strip text) BOLD_PLACEHOLDER CONTROL_BOLD)
          ITALIC_PLACEHOLDER CONTROL_ITALIC.

Definition handle_endtag (p : Parser) (tag : pystr) : res Parser :=
  if is_tag tag ["td"; "th"]%string then
    let p := set_in_cell false p in
    let p :=
      if negb (skipping p)
      then set_current_row (current_row p ++ [clean_cell (current_cell p)]) p
      else p in
    Ok (set_current_cell [] p)
  else if is_tag tag ["tr"]%string then
    let p :=
      if negb (skipping p) then set_rows (rows p ++ [current_row p]) p
      else p in
    Ok (set_current_row [] p)
  else if is_tag tag ["table"]%string then
    res_bind
      (if negb (skipping p) then
         match tables p with
         | Raw ts => Ok (set_tables (Raw (ts ++ [rows p])) p)
         | Processed _ => Raise AttributeError
         end
       else Ok p)
      (fun p => Ok (set_in_cell false (set_skipping true (set_rows [] p))))
  else if is_tag tag ["sup"]%string && in_cell p then
    Ok (set_skipping false p)
  else if is_tag tag ["b"; "strong"]%string && in_cell p then
    Ok (set_current_cell (current_cell p ++ BOLD_PLACEHOLDER) p)
  else if is_tag tag ["i"; "em"]%string && in_cell p then
    Ok (set_current_cell (current_cell p ++ ITALIC_PLACEHOLDER) p)
  else Ok p.

Definition handle_data (p : Parser) (data : pystr) : Parser :=
  if in_cell p && negb (skipping p)
  then set_current_cell (current_cell p ++ data) p
  else p.

Definition dispatch (p : Parser) (e : event) : res Parser :=
  match e with
  | StartTag tag attrs => handle_starttag p tag attrs
  | EndTag tag => handle_endtag p tag
  | Data data => Ok (handle_data p data)
  end.

(** The callbacks run in document order; an exception ends the run. *)
Fixpoint run_events (p : Parser) (es : list event) : res Parser :=
  match es with
  | [] => Ok p
  | e :: rest => res_bind (dispatch p e) (fun p' => run_events p' rest)
  end.

(** [parser.feed(text)] followed by the flush of [close()]: every callback
    of the document has run. *)
Definition feed (p : Parser) (text : pystr) : res Parser :=
  run_events p (html_events text).
End Extractor.

(** ** Log records and observable effects *)

Inductive logrec :=
| Debug (msg : string)
| DebugCacheFresh (which : pystr) (age : Z)
| DebugUpdated (which : pystr)
| WarnSkipRow (r : row)
| WarnFetchList
| WarnFetchData
| ErrorUnknownCache (which : pystr).

(** ** [get_processed_data]: the record indexer *)

(** [r_tld = re.compile(r'^\.(\S+)')]: group 1 of a match at the start. *)
Definition r_tld_match (cell : pystr) : option pystr :=
  match cell with
  | c :: rest =>
      if (c =? 46)%N then
        match takewhile (fun x => negb (isspace x)) rest with
        | [] => None
        | g => Some g
        end
      else None
  | [] => None
  end.

(** [r_idn = re.compile(r'^(xn--[A-Za-z0-9]+)')]: group 1 of a match. *)
Definition r_idn_match (cell : pystr) : option pystr :=
  if startswith cell (py "xn--") then
    match takewhile isalnum_ascii (drop 4 cell) with
    | [] => None
    | g => Some (py "xn--" ++ g)
    end
  else None.

(** Truth value of a key that is [None] or a string. *)
Definition truthy (k : option pystr) : bool :=
  match k with
  | Some (_ :: _) => true
  | _ => false
  end.

Definition EM_DASH : pystr := [8212%N].

(** [tld_list[k] = zipped], when [k] is truthy. *)
Definition store (k : option pystr) (a : nat) (ix : gmap pystr nat)
  : gmap pystr nat :=
  match k with
  | Some (c :: t) => <[c :: t := a]> ix
  | _ => ix
  end.

Section Indexer.
Context `{Platform}.

(** One iteration of [for cell in row]. *)
Definition scan_cell (keys : option pystr * option pystr) (cell : pystr)
  : option pystr * option pystr :=
  let '(key, idn_key) := keys in
  let key :=
    match r_tld_match cell with
    | Some g => if negb (truthy key) then Some (str_lower g) else key
    | None => key
    end in
  let idn_key :=
    match r_idn_match cell with
    | Some g => if negb (truthy idn_key) then Some (str_lower g) else idn_key
    | None => idn_key
    end in
  (key, idn_key).

Definition row_keys (r : row) : option pystr * option pystr :=
  fold_left scan_cell r (None, None).

(** The dict comprehension over [dict(zip(headings, row)).items()]. *)
Definition zipped (headings r : row) : record :=
  filter (fun fv => fv.2 <> [] /\ fv.2 <> EM_DASH)
         (dict_of_pairs (zip headings r)).

(** The body of [for row in table[1:]].  A row with a key allocates one
    record object and stores it under the truthy keys. *)
Definition index_row (headings : row) (st : TldData * list logrec) (r : row)
  : TldData * list logrec :=
  let '(d, log) := st in
  let '(key, idn_key) := row_keys r in
  if negb (truthy key || truthy idn_key) then (d, log ++ [WarnSkipRow r])
  else
    let a := length (objs d) in
    (mkTldData (objs d ++ [zipped headings r])
               (store idn_key a (store key a (index d))),
     log).

(** [for table in self.tables]; [table[0]] of an empty table raises. *)
Fixpoint index_tables (st : TldData * list logrec) (ts : list table)
  : res TldData * list logrec :=
  match ts with
  | [] => (Ok st.1, st.2)
  | [] :: _ => (Raise IndexError, st.2)
  | (headings :: data) :: rest =>
      index_tables (fold_left (index_row headings) data st) rest
  end.

Definition get_processed_data (p : Parser)
  : res (Parser * TldData) * list logrec :=
  let log := [Debug "Processed TLD data requested."] in
  match tables p with
  | Processed d =>
      (Ok (p, d), log ++ [Debug "Returning stored previously-processed data."])
  | Raw ts =>
      let log := log ++ [Debug "Ensuring all buffered data has been parsed.";
                         Debug "Processing tables."] in
      match index_tables (empty_data, log) ts with
      | (Ok d, log) =>
          (Ok (set_tables (Processed d) p, d),
           log ++ [Debug "Finished processing TLD data; returning it."])
      | (Raise e, log) => (Raise e, log)
      end
  end.
End Indexer.

(** ** The bot, the clock and the network *)

Inductive dataset := DList | DData.

Inductive effect :=
| Log (r : logrec)
| HttpGet (ds : dataset)
| Reply (text : pystr)
| Say (text : pystr).

(** A decoded JSON document. *)
#[local] Set Warnings "-register-all".
Inductive json :=
| JNull
| JBool (b : bool)
| JNum (literal : pystr)
| JStr (s : pystr)
| JArr (items : list json)
| JObj (members : list (pystr * json)).

(** [value[key]] for a string [key]: only an object can be subscripted by a
    string; among duplicate members the last one is kept by the decoder. *)
Definition json_getitem (value : json) (key : pystr) : res json :=
  match value with
  | JObj members =>
      match find (fun m => streq m.1 key) (reverse members) with
      | Some m => Ok m.2
      | None => Raise KeyError
      end
  | _ => Raise TypeError
  end.

(** Outcome of [requests.get]: [RequestException], or a response. *)
Inductive http_result (A : Type) :=
| RequestFailed
| Response (body : A).
Arguments RequestFailed {A}.
Arguments Response {A} body.

(** What the outside world answers at each interaction: the time read by
    [datetime.now()], the text of the IANA list, and the Wikipedia response
    with the outcome of its [.json()] ([None] when the body does not
    decode). *)
Record Env := mkEnv {
  clock : nat -> datetime;
  iana_get : nat -> http_result pystr;
  wiki_get : nat -> http_result (option json)
}.

(** The state of a run: [bot.memory], the effects so far (newest first) and
    the number of interactions with the outside world. *)
Record World := mkWorld {
  memory : Memory;
  trace : list effect;
  tick : nat
}.

Definition M (A : Type) := World -> res A * World.

Definition ret {A} (a : A) : M A := fun w => (Ok a, w).
Definition raise {A} (e : exn) : M A := fun w => (Raise e, w).
Definition bind {A B} (m : M A) (k : A -> M B) : M B :=
  fun w =>
    match m w with
    | (Ok a, w') => k a w'
    | (Raise e, w') => (Raise e, w')
    end.

#[export] Instance M_ret : MRet M := @ret.
#[export] Instance M_bind : MBind M := fun A B k m => bind m k.

Definition emit (e : effect) : M unit :=
  fun w => (Ok tt, mkWorld (memory w) (e :: trace w) (tick w)).
Definition emit_logs (l : list logrec) : M unit :=
  fun w => (Ok tt, mkWorld (memory w) (reverse (map Log l) ++ trace w) (tick w)).
Definition read_memory : M Memory := fun w => (Ok (memory w), w).
Definition write_memory (m : Memory) : M unit :=
  fun w => (Ok tt, mkWorld m (trace w) (tick w)).
Definition lift {A} (r : res A) : M A := fun w => (r, w).

Definition datetime_now (env : Env) : M datetime :=
  fun w => (Ok (clock env (tick w)), mkWorld (memory w) (trace w) (S (tick w))).
Definition get_iana (env : Env) : M (http_result pystr) :=
  fun w => (Ok (iana_get env (tick w)),
            mkWorld (memory w) (HttpGet DList :: trace w) (S (tick w))).
Definition get_wiki (env : Env) : M (http_result (option json)) :=
  fun w => (Ok (wiki_get env (tick w)),
            mkWorld (memory w) (HttpGet DData :: trace w) (S (tick w))).

Definition set_list (l : list pystr) (now : datetime) (m : Memory) : Memory :=
  mkMemory l now (tld_data_cache m) (tld_data_cache_updated m).
Definition set_data (d : TldData) (now : datetime) (m : Memory) : Memory :=
  mkMemory (tld_list_cache m) (tld_list_cache_updated m) d now.

(** ** [_update_tld_data] *)

Section Update.
Context `{Platform}.
Variable env : Env.

(** The first [if]/[elif]/[else]: the timestamp of the chosen cache. *)
Definition cache_updated (which : pystr) (m : Memory) : option datetime :=
  if streq which (py "list") then Some (tld_list_cache_updated m)
  else if streq which (py "data") then Some (tld_data_cache_updated m)
  else None.

(** The comprehension over [tld_list.splitlines()]. *)
Definition parse_iana_list (text : pystr) : list pystr :=
  map str_lower
      (filter (fun line => startswith line (py "#") = false)
              (splitlines text)).

Definition fetch_list (now : datetime) : M unit :=
  r ← get_iana env;
  match r with
  | RequestFailed => emit (Log WarnFetchList)
  | Response text =>
      m ← read_memory;
      write_memory (set_list (parse_iana_list text) now m);;
      emit (Log (DebugUpdated (py "list")))
  end.

(** [tld_response["parse"]["text"]] *)
Definition response_text (j : json) : res json :=
  res_bind (json_getitem j (py "parse"))
           (fun v => json_getitem v (py "text")).

(** The statements after the [try] of the data branch; [parser.feed]
    needs a string. *)
Definition parse_and_store (tld_data : json) (now : datetime) : M unit :=
  match tld_data with
  | JStr text =>
      p ← lift (feed new_parser text);
      let '(r, log) := get_processed_data p in
      emit_logs log;;
      pd ← lift r;
      m ← read_memory;
      write_memory (set_data pd.2 now m);;
      emit (Log (DebugUpdated (py "data")))
  | _ => raise TypeError
  end.

Definition fetch_data (now : datetime) : M unit :=
  r ← get_wiki env;
  match r with
  | RequestFailed => emit (Log WarnFetchData)
  | Response None => emit (Log WarnFetchData)
  | Response (Some j) =>
      match response_text j with
      | Raise KeyError => emit (Log WarnFetchData)
      | Raise ValueError => emit (Log WarnFetchData)
      | Raise RequestException => emit (Log WarnFetchData)
      | Raise e => raise e
      | Ok tld_data => parse_and_store tld_data now
      end
  end.

Definition _update_tld_data (which : pystr) : M unit :=
  m ← read_memory;
  match cache_updated which m with
  | None => emit (Log (ErrorUnknownCache which))
  | Some then_ =>
      now ← datetime_now env;
      let since := datetime_sub now then_ in
      if (days since <? 7)%Z then
        emit (Log (DebugCacheFresh which (days since)))
      else if streq which (py "list") then fetch_list now
      else fetch_data now
  end.

(** [update_caches], run every hour. *)
Definition update_caches : M unit :=
  _update_tld_data (py "list");; _update_tld_data (py "data").
End Update.

(** ** [gettld] *)

(** [list.sort(key=...)] for a boolean key: a stable sort, [False] before
    [True].  [sort_insert] puts [x], which precedes the elements of [l] in
    the list being sorted, before the first element that is not smaller. *)
Fixpoint sort_insert {A} (key : A -> bool) (x : A) (l : list A) : list A :=
  match l with
  | [] => [x]
  | y :: t =>
      if negb (key y) && key x then y :: sort_insert key x t
      else x :: y :: t
  end.

Fixpoint sort_by_key {A} (key : A -> bool) (l : list A) : list A :=
  match l with
  | [] => []
  | x :: t => sort_insert key x (sort_by_key key t)
  end.

(** [lambda s: s.startswith('Notes') or s.startswith('Comments')] *)
Definition notes_key (s : pystr) : bool :=
  startswith s (py "Notes") || startswith s (py "Comments").

Definition ELLIPSIS : pystr := [32; 91; 8230; 93]%N.

Definition msg_need_tld : pystr :=
  py "You must provide a top-level domain to search.".
Definition msg_not_valid (tld : pystr) : pystr :=
  py "The top-level domain '" ++ tld
     ++ py "' is not in IANA's list of valid TLDs.".
Definition msg_no_details (tld : pystr) : pystr :=
  py "The top-level domain '" ++ tld
     ++ py "' exists, but no details about it could be found.".

Section Resolver.
Context `{Platform}.
Variable env : Env.

(** [tld.strip('.').lower()] *)
Definition normalize (raw : pystr) : pystr :=
  str_lower (strip_chars (py ".") raw).

(** [fields = list(record.keys())] followed by [fields.sort(key=...)]. *)
Definition ordered_fields (r : record) : list pystr :=
  sort_by_key notes_key (dict_keys r).

(** The loop building [items]; [record[field]] of a key of [record]. *)
Definition render_items (r : record) : list pystr :=
  omap (fun field =>
          match dict_get r field with
          | Some (c :: v) => Some (field ++ py ": " ++ c :: v)
          | _ => None
          end)
       (ordered_fields r).

Definition render (r : record) : pystr :=
  let message := join (py " | ") (render_items r) in
  let '(usable, excess) := get_sendable_message message in
  match excess with
  | [] => message
  | _ => usable ++ ELLIPSIS
  end.

(** From the lookup in the record index to the end. *)
Definition show_record (tld : pystr) : M unit :=
  m ← read_memory;
  match data_get (tld_data_cache m) tld with
  | None | Some [] => emit (Say (msg_no_details tld))
  | Some r => emit (Say (render r))
  end.

(** [if not bot.memory['tld_data_cache']: _update_tld_data(bot, 'data')] *)
Definition ensure_data : M unit :=
  m ← read_memory;
  if bool_decide (index (tld_data_cache m) = ∅)
  then _update_tld_data env (py "data")
  else mret tt.

(** The validation against the suffix list and what follows it.  Both
    candidate names are computed before either is looked up. *)
Definition validate_and_show (tld : pystr) : M unit :=
  m ← read_memory;
  let tld_list := tld_list_cache m in
  match idna_ToASCII tld with
  | None => raise UnicodeError
  | Some ascii =>
      if negb (bool_decide (tld ∈ tld_list)
               || bool_decide (ascii ∈ tld_list))
      then emit (Reply (msg_not_valid tld))
      else ensure_data;; show_record tld
  end.

(** [if not bot.memory['tld_list_cache']: _update_tld_data(bot, 'list')] *)
Definition ensure_list : M unit :=
  m ← read_memory;
  match tld_list_cache m with
  | [] => _update_tld_data env (py "list")
  | _ => mret tt
  end.

(** [gettld(bot, trigger)], with [group2 = trigger.group(2)]. *)
Definition gettld (group2 : option pystr) : M unit :=
  match group2 with
  | None | Some [] => emit (Reply msg_need_tld)
  | Some raw =>
      let tld := normalize raw in
      ensure_list;; validate_and_show tld
  end.
End Resolver.

(** ** A platform for plain ASCII text

    Used to run the model on concrete inputs: ASCII letters are lowercased,
    an ASCII label of 1 to 63 characters is its own IDNA form, a document is
    handed over as one piece of character data, and messages of up to 400
    characters are sendable whole. *)

Definition ascii_lower (s : pystr) : pystr :=
  map (fun c => if ((65 <=? c) && (c <=? 90))%N then (c + 32)%N else c) s.

Definition ascii_ToASCII (s : pystr) : option pystr :=
  if forallb (fun c => (c <? 128)%N) s
     && (1 <=? length s)%nat && (length s <=? 63)%nat
  then Some s else None.

Definition ascii_platform : Platform := {|
  CONTROL_BOLD := [2%N];
  CONTROL_ITALIC := [29%N];
  str_lower := ascii_lower;
  html_events := fun text => [Data text];
  idna_ToASCII := ascii_ToASCII;
  get_sendable_message := fun m => (take 400 m, drop 400 m)
|}.

(** ** Plain two-column tables, as the parser receives them *)

(** One row: [<tr>], two cells of [tag] ([td] or [th]) and [</tr>], with the
    text [sep] between the tags. *)
Definition cell_events (tag : string) (text : pystr) : list event :=
  [StartTag (py tag) []; Data text; EndTag (py tag)].

Definition row_events (tag : string) (sep : pystr) (cells : pystr * pystr)
  : list event :=
  [StartTag (py "tr") []; Data sep]
  ++ cell_events tag cells.1 ++ [Data sep]
  ++ cell_events tag cells.2 ++ [Data sep; EndTag (py "tr"); Data sep].

(** A table whose [class] attribute is [cls], with a heading row and the
    data rows [body]. *)
Definition table_events (cls sep : pystr) (headings : pystr * pystr)
    (body : list (pystr * pystr)) : list event :=
  [StartTag (py "table") [(py "class", Some cls)]; Data sep]
  ++ row_events "th" sep headings
  ++ flat_map (row_events "td" sep) body
  ++ [EndTag (py "table")].

(** ** Vocabulary of the statements *)

Definition dataset_name (ds : dataset) : pystr :=
  match ds with
  | DList => py "list"
  | DData => py "data"
  end.

(** The [updatedAt] timestamp of a dataset. *)
Definition updated_at (ds : dataset) (m : Memory) : datetime :=
  match ds with
  | DList => tld_list_cache_updated m
  | DData => tld_data_cache_updated m
  end.

(** The request made at interaction [n] fails: the transport raises, or the
    body does not decode as JSON, or the decoded object lacks a key of the
    path. *)
Definition fetch_fails (env : Env) (ds : dataset) (n : nat) : Prop :=
  match ds with
  | DList => iana_get env n = RequestFailed
  | DData =>
      wiki_get env n = RequestFailed
      \/ wiki_get env n = Response None
      \/ exists j, wiki_get env n = Response (Some j)
                   /\ response_text j = Raise KeyError
  end.

(** [w'] is [w] after further effects [new] (newest first). *)
Definition extends_by (new : list effect) (w w' : World) : Prop :=
  trace w' = new ++ trace w.

(** The world after [bot.say(text)]. *)
Definition said (text : pystr) (w : World) : World :=
  mkWorld (memory w) (Say text :: trace w) (tick w).


Section RowVocabulary.
Context `{Platform}.

(** The keys under which [index_row] stores the record of a row. *)
Definition row_key_list (r : row) : list pystr :=
  let '(key, idn_key) := row_keys r in
  (if truthy key then option_list key else [])
  ++ (if truthy idn_key then option_list idn_key else []).

Definition keyed (r : row) : Prop := row_key_list r <> [].

(** A row no cell of which starts with a [.suffix] or an [xn--] token. *)
Definition keyless (r : row) : Prop :=
  Forall (fun cell => r_tld_match cell = None /\ r_idn_match cell = None) r.

(** The data rows that follow a position: the rest of the table and the
    data rows of the tables after it. *)
Definition later_rows (post : list row) (tpost : list table) : list row :=
  post ++ flat_map (drop 1) tpost.

(** The indexer's work list: every data row with the headings of its
    table, in processing order. *)
Definition jobs (ts : list table) : list (row * row) :=
  flat_map (fun t => (fun r => (hd [] t, r)) <$> drop 1 t) ts.

Definition index_job (st : TldData * list logrec) (j : row * row)
  : TldData * list logrec :=
  index_row j.1 st j.2.

(** What the extractor makes of a two-cell row. *)
Definition extracted (cells : pystr * pystr) : row :=
  [clean_cell cells.1; clean_cell cells.2].

(** Extractor, then indexer, from a fresh parser. *)
Definition extract_and_index (es : list event) : res TldData :=
  res_bind (run_events new_parser es)
           (fun p => res_bind (get_processed_data p).1 (fun pd => Ok pd.2)).


(** Normalisation as the specification words it: leading dots only. *)
Definition spec_normalize (raw : pystr) : pystr :=
  str_lower (lstrip_chars (py ".") raw).
End RowVocabulary.

Definition no_empty_values (r : record) : Prop :=
  forall field value, (field, value) ∈ r -> value <> [] /\ value <> EM_DASH.

(** ** Concrete inputs *)

Definition empty_db : Db := mkDb None None None None.

Definition jan (d : Z) : datetime := mkdatetime 2020 1 d 0 0 0 0.

(** Nothing can be fetched; the clock shows 8 January 2020. *)
Definition offline_env : Env :=
  mkEnv (fun _ => jan 8) (fun _ => RequestFailed) (fun _ => RequestFailed).

(** The clock shows 2 January 2020. *)
Definition early_env : Env :=
  mkEnv (fun _ => jan 2) (fun _ => RequestFailed) (fun _ => RequestFailed).

(** Both caches empty, last written on 1 January 2020. *)
Definition blank_world : World :=
  mkWorld (mkMemory [] (jan 1) empty_data (jan 1)) [] 0.

(** A list cache knowing [ru], and an index holding an empty record for it. *)
Definition ru_world : World :=
  mkWorld (mkMemory [py "ru"] (jan 1)
                    (mkTldData [[]] {[ py "ru" := 0 ]}) (jan 1)) [] 0.

Definition parser_with (ts : list table) : Parser :=
  set_tables (Raw ts) new_parser.

Definition twin_key_tables : list table :=
  [[ [py "Name"; py "IDN"];
     [py ".aa"; py "xn--bb"];
     [py ".aa"; py "zz"] ]].

Definition skip_tables : list table :=
  [[ [py "Name"; py "Entity"];
     [py ".aa"; py "first"];
     [py "none"; py "here"];
     [py ".cc"; py "third"] ]].

Definition two_suffix_events : list event :=
  table_events (py "wikitable") (py " ") (py "Name", py "Entity")
               [(py ".aa", py ".bb")].

(** The IANA list has no entries; the clock shows 8 January 2020. *)
Definition empty_body_env : Env :=
  mkEnv (fun _ => jan 8) (fun _ => Response []) (fun _ => RequestFailed).

(** The Wikipedia API answers with a JSON array; 8 January 2020. *)
Definition array_env : Env :=
  mkEnv (fun _ => jan 8) (fun _ => RequestFailed)
        (fun _ => Response (Some (JArr []))).

(** A list cache knowing [ru], and a record for it whose notes come first. *)
Definition ru_record : record :=
  [(py "Notes", py "Russian Federation"); (py "Entity", py "Russia");
   (py "IDN", py "Yes")].

Definition ru_details_world : World :=
  mkWorld (mkMemory [py "com"; py "ru"] (jan 1)
                    (mkTldData [ru_record] {[ py "ru" := 0 ]}) (jan 1)) [] 0.

(** ** [shutdown] *)

(** [d.strftime(DATE_FORMAT)]: zero-padded fields; the microseconds are not
    written.  Years from 1000 to 9999 are written with their four digits on
    every platform. *)
Definition digit_char (d : Z) : N := Z.to_N (48 + d).

Definition pad2 (n : Z) : pystr :=
  [digit_char (n / 10 mod 10); digit_char (n mod 10)]%Z.

Definition pad4 (n : Z) : pystr :=
  [digit_char (n / 1000 mod 10); digit_char (n / 100 mod 10);
   digit_char (n / 10 mod 10); digit_char (n mod 10)]%Z.

Definition strftime (d : datetime) : pystr :=
  pad4 (year d) ++ [45%N] ++ pad2 (month d) ++ [45%N] ++ pad2 (day d)
  ++ [32%N] ++ pad2 (hour d) ++ [58%N] ++ pad2 (minute d) ++ [58%N]
  ++ pad2 (second d).

(** [shutdown(bot)]: what ends up in the database.  A cache that is empty is
    not written, neither is its timestamp.  The database keeps the contents
    of the records, not the identity of the record objects.  The four keys
    are then deleted from [bot.memory], which ends the life of the
    [Memory]. *)
Definition shutdown (m : Memory) (db : Db) : Db :=
  let db :=
    match tld_list_cache m with
    | [] => db
    | _ =>
        mkDb (Some (tld_list_cache m))
             (Some (strftime (tld_list_cache_updated m)))
             (db_tld_data_cache db) (db_tld_data_cache_updated db)
    end in
  if bool_decide (index (tld_data_cache m) = ∅) then db
  else
    mkDb (db_tld_list_cache db) (db_tld_list_cache_updated db)
         (Some (tld_data_cache m))
         (Some (strftime (tld_data_cache_updated m))).

(** A date and time of day that [datetime] accepts, with a four-digit year. *)
Definition valid_datetime (d : datetime) : Prop :=
  (1000 <= year d <= 9999 /\ 1 <= month d <= 12
   /\ 1 <= day d <= days_in_month (year d) (month d)
   /\ 0 <= hour d <= 23 /\ 0 <= minute d <= 59 /\ 0 <= second d <= 59)%Z.

(** The datetime without its microseconds. *)
Definition to_second (d : datetime) : datetime :=
  mkdatetime (year d) (month d) (day d) (hour d) (minute d) (second d) 0.

(** ** Rows of plain cells *)

(** A row of any number of cells, with the text [sep] between the tags. *)
Definition wide_row_events (tag : string) (sep : pystr) (cells : list pystr)
  : list event :=
  [StartTag (py "tr") []; Data sep]
  ++ flat_map (fun c => cell_events tag c ++ [Data sep]) cells
  ++ [EndTag (py "tr"); Data sep].

(** The rows of a table: a heading row of [th] cells, then data rows of
    [td] cells. *)
Definition rows_events (sep : pystr) (rws : list (list pystr)) : list event :=
  match rws with
  | [] => []
  | h :: body =>
      wide_row_events "th" sep h ++ flat_map (wide_row_events "td" sep) body
  end.

(** The events that can switch extraction on: a [table] start tag with a
    [class] attribute, and the end of a superscript. *)
Definition unskips (e : event) : bool :=
  match e with
  | StartTag tag attrs =>
      streq tag (py "table") && existsb (fun a => streq a.1 (py "class")) attrs
  | EndTag tag => streq tag (py "sup")
  | Data _ => false
  end.

(** ** Tables as markup

    The parser sees a document as a stream of callbacks.  The records below
    describe that stream for a table whose rows and cells are opened and
    closed by their tags; everything else the document holds (captions,
    [tbody], links, formatting, superscripts, white space) is kept as it
    comes, in the [list event] fields. *)

Inductive celltag := TD | TH.

Definition celltag_name (t : celltag) : pystr :=
  match t with
  | TD => py "td"
  | TH => py "th"
  end.

(** [<td attrs>], the content, [</td>]. *)
Record cell_markup := mkCell {
  cm_tag : celltag;
  cm_attrs : list (pystr * option pystr);
  cm_content : list event
}.

(** The cells of a row, each with the events that come before it since the
    previous cell or row ([<tr>], white space), then the events up to
    [</tr>]. *)
Record row_markup := mkRow {
  rm_cells : list (list event * cell_markup);
  rm_tail : list event
}.

(** [<table attrs>], the rows, the events up to [</table>], and the events
    from [</table>] to the next table or the end of the document. *)
Record table_markup := mkTable {
  tm_attrs : list (pystr * option pystr);
  tm_rows : list row_markup;
  tm_tail : list event;
  tm_after : list event
}.

Definition cell_markup_events (c : cell_markup) : list event :=
  StartTag (celltag_name (cm_tag c)) (cm_attrs c)
  :: cm_content c ++ [EndTag (celltag_name (cm_tag c))].

Definition gapped_cell_events (gc : list event * cell_markup) : list event :=
  gc.1 ++ cell_markup_events gc.2.

Definition row_markup_events (r : row_markup) : list event :=
  flat_map gapped_cell_events (rm_cells r)
  ++ rm_tail r ++ [EndTag (py "tr")].

Definition table_markup_events (t : table_markup) : list event :=
  StartTag (py "table") (tm_attrs t)
  :: flat_map row_markup_events (tm_rows t)
  ++ tm_tail t ++ [EndTag (py "table")] ++ tm_after t.


(** The structural tags: those that open or close a cell, close a row, or
    open or close a table. *)
Definition structural (e : event) : bool :=
  match e with
  | StartTag tag _ =>
      is_tag tag ["td"; "th"]%string || is_tag tag ["table"]%string
  | EndTag tag =>
      is_tag tag ["td"; "th"]%string || is_tag tag ["tr"]%string
      || is_tag tag ["table"]%string
  | Data _ => false
  end.

Definition opens_sup (e : event) : bool :=
  match e with
  | StartTag tag _ => is_tag tag ["sup"]%string
  | _ => false
  end.

Definition closes_sup (e : event) : bool :=
  match e with
  | EndTag tag => is_tag tag ["sup"]%string
  | _ => false
  end.

Definition no_structure (es : list event) : bool :=
  forallb (fun e => negb (structural e)) es.


(** Some [class] attribute of the start tag contains [wikitable]. *)
Definition wikitable_class (attrs : list (pystr * option pystr)) : bool :=
  existsb (fun a => streq a.1 (py "class")
                    && match a.2 with
                       | Some v => contains (py "wikitable") v
                       | None => false
                       end) attrs.

(** Every [class] attribute of the start tag has a value. *)
Definition class_valued (attrs : list (pystr * option pystr)) : bool :=
  forallb (fun a => negb (streq a.1 (py "class"))
                    || match a.2 with
                       | Some _ => true
                       | None => false
                       end) attrs.

(** The tables the plugin is after. *)
Definition wanted_table (t : table_markup) : bool :=
  wikitable_class (tm_attrs t).

(** Whether what follows [es] is inside a superscript, given whether what
    precedes it is: [<sup>] switches on and [</sup>] off, with no count of
    the nesting. *)
Fixpoint sup_open (in_sup : bool) (es : list event) : bool :=
  match es with
  | [] => in_sup
  | e :: rest =>
      sup_open (if opens_sup e then true
                else if closes_sup e then false else in_sup) rest
  end.




(** Between the cells and rows of a table, and between tables: no
    structural tag; inside a table that is wanted, no [<sup>] either. *)
Definition gap_ok (wanted : bool) (e : event) : bool :=
  negb (structural e) && (negb wanted || negb (opens_sup e)).

(** Inside a cell: no structural tag; in a table that is wanted, the cell
    does not end inside a superscript; in any other table, the cell holds
    no [</sup>]. *)
Definition cell_ok (wanted : bool) (c : cell_markup) : bool :=
  no_structure (cm_content c)
  && (if wanted then negb (sup_open false (cm_content c))
      else forallb (fun e => negb (closes_sup e)) (cm_content c)).

Definition row_ok (wanted : bool) (r : row_markup) : bool :=
  forallb (fun gc => forallb (gap_ok wanted) gc.1 && cell_ok wanted gc.2)
          (rm_cells r)
  && forallb (gap_ok wanted) (rm_tail r).

(** The tables the statements below are about. *)
Definition well_formed (t : table_markup) : bool :=
  class_valued (tm_attrs t)
  && forallb (row_ok (wanted_table t)) (tm_rows t)
  && forallb (gap_ok (wanted_table t)) (tm_tail t)
  && forallb (gap_ok false) (tm_after t).

Section MarkupVocabulary.
Context `{Platform}.


End MarkupVocabulary.

(** [<name>], [inner], [</name>]. *)
Definition tag_events (name : string) (inner : list event) : list event :=
  StartTag (py name) [] :: inner ++ [EndTag (py name)].






(** The table of [two_suffix_events], as markup. *)
Definition two_suffix_markup : table_markup :=
  mkTable
    [(py "class", Some (py "wikitable"))]
    [mkRow
       [([Data (py " "); StartTag (py "tr") []; Data (py " ")],
         mkCell TH [] [Data (py "Name")]);
        ([Data (py " ")], mkCell TH [] [Data (py "Entity")])]
       [Data (py " ")];
     mkRow
       [([Data (py " "); StartTag (py "tr") []; Data (py " ")],
         mkCell TD [] [Data (py ".aa")]);
        ([Data (py " ")], mkCell TD [] [Data (py ".bb")])]
       [Data (py " ")]]
    [Data (py " ")]
    [].

(** A [wikitable] table whose caption holds a superscript. *)
Definition footnoted_caption_events : list event :=
  [StartTag (py "table") [(py "class", Some (py "wikitable"))]]
  ++ tag_events "caption"
       (Data (py "Domains") :: tag_events "sup" [Data (py "[1]")])
  ++ tag_events "tr"
       (tag_events "th" [Data (py "Name")]
        ++ tag_events "th" [Data (py "Entity")])
  ++ tag_events "tr"
       (tag_events "td" [Data (py ".ru")]
        ++ tag_events "td" [Data (py "Russia")])
  ++ [EndTag (py "table")].

(** A table of another class with a superscript in a cell. *)
Definition footnoted_navbox_events : list event :=
  [StartTag (py "table") [(py "class", Some (py "navbox"))]]
  ++ tag_events "tr"
       (tag_events "td"
          (Data (py "a") :: tag_events "sup" [Data (py "1")]
           ++ [Data (py "b")])
        ++ tag_events "td" [Data (py "c")])
  ++ [EndTag (py "table")].


(** ** More vocabulary *)

Definition is_message (e : effect) : bool :=
  match e with
  | Reply _ | Say _ => true
  | _ => false
  end.

Definition is_request (e : effect) : bool :=
  match e with
  | HttpGet _ => true
  | _ => false
  end.

(** Effects among which there is no message to the channel. *)
Definition quiet (new : list effect) : Prop :=
  Forall (fun e => is_message e = false) new.

(** The newest effect is a message and it is the only one, when the call
    returned; there is none, when it raised. *)
Definition answers_once {A} (r : res A) (new : list effect) : Prop :=
  match r with
  | Ok _ => exists m rest, new = m :: rest /\ is_message m = true /\ quiet rest
  | Raise _ => quiet new
  end.

(** The two debug records of a call that finds the data processed. *)
Definition memo_log : list logrec :=
  [Debug "Processed TLD data requested.";
   Debug "Returning stored previously-processed data."].

(** ** [sopel-plugins]: [handle_list] and [handle_disable] *)

(** [settings.core.enable] and [settings.core.exclude]. *)
Record Settings := mkSettings {
  core_enable : list pystr;
  core_exclude : list pystr
}.

(** The options of [sopel-plugins disable]. *)
Record DisableOptions := mkDisableOptions {
  opt_name : pystr;
  opt_force : bool;
  opt_remove : bool
}.

Inductive cli_effect :=
| Stderr (text : pystr)
| Stdout (text : pystr)
| Save (s : Settings).

(** The outcome of a handler: its return value ([None] when it falls off
    the end), its effects in order, and the settings object as it leaves
    it. *)
Record CliRun := mkCliRun {
  returned : option Z;
  effects : list cli_effect;
  settings_after : Settings
}.

(** [handle_disable(options)].  [usable] holds the names and states given
    by [plugins.get_usable_plugins(settings)]. *)
Definition handle_disable (options : DisableOptions)
    (usable : list (pystr * bool)) (settings : Settings) : CliRun :=
  let plugin_name := opt_name options in
  let excluded := core_exclude settings in
  if streq plugin_name (py "coretasks") then
    mkCliRun (Some 1%Z) [Stderr (py "Plugin coretasks cannot be disabled")]
             settings
  else if negb (bool_decide (plugin_name ∈ usable.*1)) then
    mkCliRun (Some 1%Z) [Stderr (py "No plugin named " ++ plugin_name)]
             settings
  else
    let '(settings, saved) :=
      if opt_remove options
         && bool_decide (plugin_name ∈ core_enable settings)
      then
        let s := mkSettings
                   (filter (fun name => name <> plugin_name)
                           (core_enable settings))
                   (core_exclude settings) in
        (s, [Save s])
      else (settings, []) in
    if bool_decide (plugin_name ∈ excluded) then
      mkCliRun (Some 0%Z)
               (saved ++ [Stderr (py "Plugin " ++ plugin_name
                                  ++ py " already disabled")])
               settings
    else
      let is_enabled :=
        match core_enable settings with
        | [] => true
        | _ => bool_decide (plugin_name ∈ core_enable settings)
        end in
      if negb is_enabled && negb (opt_force options) then
        mkCliRun (Some 0%Z)
                 (saved ++ [Stderr (py "Plugin " ++ plugin_name
                                    ++ py " is disabled but not excluded; "
                                    ++ py "use -f/--force to force its exclusion")])
                 settings
      else
        let s := mkSettings (core_enable settings) (excluded ++ [plugin_name]) in
        mkCliRun None
                 (saved ++ [Save s;
                            Stdout (py "Plugin " ++ plugin_name
                                    ++ py " disabled")])
                 s.

(** The options of [sopel-plugins list]. *)
Record ListOptions := mkListOptions {
  opt_no_color : bool;
  opt_enabled_only : bool;
  opt_disabled_only : bool
}.

(** A printed line: the name as it is, or through [utils.green] or
    [utils.red]. *)
Inductive listed :=
| Plain (name : pystr)
| Green (name : pystr)
| Red (name : pystr).

Definition listed_name (l : listed) : pystr :=
  match l with
  | Plain n | Green n | Red n => n
  end.

(** [handle_list(options)]: the lines printed, in order. *)
Definition handle_list (options : ListOptions) (usable : list (pystr * bool))
  : list listed :=
  omap (fun info : pystr * bool =>
          let '(name, is_enabled) := info in
          if opt_enabled_only options && negb is_enabled then None
          else if opt_disabled_only options && is_enabled then None
          else if opt_no_color options then Some (Plain name)
          else if is_enabled then Some (Green name)
          else Some (Red name))
       usable.

(** ** Proof automation *)

(** Case analysis on every decision in the goal. *)
Ltac split_decide :=
  repeat match goal with
         | |- context [@decide ?P ?inst] => destruct (@decide P inst)
         end.

(** Closes a step that keeps extraction off, by computation. *)
Ltac step_kept Hsk :=
  eexists; split; [reflexivity|];
  split; [first [exact Hsk | reflexivity]|];
  split; [reflexivity|];
  split; first [left; reflexivity | right; reflexivity].

(** * Verification *)

(** ** The model on concrete inputs *)

Example clean_cell_keeps_bold :
  @clean_cell ascii_platform (py "  <[bold]>.ru<[bold]> ")
  = [2%N] ++ py ".ru" ++ [2%N].
Proof. reflexivity. Qed.

Example r_tld_match_first_word :
  r_tld_match (py ".ru Russia") = Some (py "ru")
  /\ r_tld_match (py ". ru") = None
  /\ r_tld_match (py "see .ru") = None.
Proof. repeat split. Qed.

Example r_idn_match_label :
  r_idn_match (py "xn--p1ai (rf)") = Some (py "xn--p1ai")
  /\ r_idn_match (py "xn--") = None
  /\ r_idn_match (py "XN--p1ai") = None.
Proof. repeat split. Qed.

Example splitlines_iana :
  splitlines (py "# Version 1" ++ [10%N] ++ py "COM" ++ [13; 10]%N ++ py "NET"
              ++ [10%N])
  = [py "# Version 1"; py "COM"; py "NET"].
Proof. reflexivity. Qed.

Example parse_iana_list_drops_comment :
  @parse_iana_list ascii_platform
    (py "# Version 1" ++ [10%N] ++ py "COM" ++ [10%N] ++ py "NET" ++ [10%N])
  = [py "com"; py "net"].
Proof. reflexivity. Qed.

Example strptime_round_values :
  strptime (py "2020-02-29 23:59:59") = Ok (mkdatetime 2020 2 29 23 59 59 0)
  /\ strptime (py "2021-02-29 00:00:00") = Raise ValueError
  /\ strptime (py "yesterday") = Raise ValueError.
Proof. repeat split. Qed.

Example days_just_under_seven :
  datetime_sub (mkdatetime 2020 1 7 23 59 59 0) (jan 1)
  = mktimedelta 6 86399 0.
Proof. reflexivity. Qed.

Example days_across_leap_day :
  days (datetime_sub (mkdatetime 2020 3 1 0 0 0 0)
                     (mkdatetime 2020 2 23 0 0 0 0)) = 7%Z.
Proof. reflexivity. Qed.

(** [.tld .RU]: the notes are rendered last. *)
Example gettld_ru :
  (@gettld ascii_platform offline_env (Some (py ".RU")) ru_details_world).2
  = said (py "Entity: Russia | IDN: Yes | Notes: Russian Federation")
         ru_details_world.
Proof. vm_compute. reflexivity. Qed.

Example gettld_unknown :
  trace (@gettld ascii_platform offline_env (Some (py "zz")) ru_details_world).2
  = [Reply (msg_not_valid (py "zz"))].
Proof. vm_compute. reflexivity. Qed.

Example gettld_missing_argument :
  trace (@gettld ascii_platform offline_env None ru_details_world).2
  = [Reply msg_need_tld]
  /\ trace (@gettld ascii_platform offline_env (Some []) ru_details_world).2
     = [Reply msg_need_tld].
Proof. split; reflexivity. Qed.

(** A body that decodes to a JSON array is not among the handled failures:
    subscripting it raises [TypeError], which the [except] clause does not
    list.  The cache is untouched all the same. *)
Example json_array_raises :
  (@_update_tld_data ascii_platform array_env (py "data") blank_world).1
  = Raise TypeError
  /\ memory (@_update_tld_data ascii_platform array_env (py "data")
               blank_world).2
     = memory blank_world.
Proof. split; vm_compute; reflexivity. Qed.

(** ** Text primitives *)

Lemma takewhile_dropwhile {A} (f : A -> bool) (l : list A) :
  takewhile f l ++ dropwhile f l = l.
Proof.
  induction l as [|x t IH]; simpl; [done|].
  destruct (f x); simpl; [by rewrite IH | done].
Qed.

Lemma takewhile_all {A} (f : A -> bool) (l : list A) :
  Forall (fun x => f x = true) (takewhile f l).
Proof.
  induction l as [|x t IH]; simpl; [constructor|].
  destruct (f x) eqn:E; [by constructor | constructor].
Qed.

Lemma dropwhile_head {A} (f : A -> bool) (l : list A) (x : A) :
  head (dropwhile f l) = Some x -> f x = false.
Proof.
  induction l as [|y t IH]; simpl; [done|].
  destruct (f y) eqn:E; [done|]. simpl. by intros [= <-].
Qed.

(** [strip_by] cuts a run of matching characters off each end and nothing
    else: what is left neither starts nor ends with a matching character. *)
Lemma strip_by_split (f : N -> bool) (s : pystr) :
  exists lead trail,
    s = lead ++ strip_by f s ++ trail
    /\ Forall (fun c => f c = true) lead
    /\ Forall (fun c => f c = true) trail
    /\ (forall c, head (strip_by f s) = Some c -> f c = false)
    /\ (forall c, last (strip_by f s) = Some c -> f c = false).
Proof.
  unfold strip_by, rstrip_by, lstrip_by.
  set (m := dropwhile f s).
  exists (takewhile f s), (reverse (takewhile f (reverse m))).
  assert (Hm : m = reverse (dropwhile f (reverse m))
                   ++ reverse (takewhile f (reverse m))).
  { rewrite <- reverse_app, takewhile_dropwhile. by rewrite reverse_involutive. }
  split; [|split; [|split; [|split]]].
  - rewrite <- Hm. subst m. by rewrite takewhile_dropwhile.
  - apply takewhile_all.
  - rewrite Forall_forall. intros c Hc. rewrite elem_of_reverse in Hc.
    revert c Hc. rewrite <- Forall_forall. apply takewhile_all.
  - intros c Hc. apply (dropwhile_head f s).
    fold m. rewrite Hm.
    destruct (reverse (dropwhile f (reverse m))) as [|y t]; [done|]. exact Hc.
  - intros c Hc. apply (dropwhile_head f (reverse m)).
    by rewrite <- last_reverse.
Qed.

Lemma inchars_dot (c : N) : inchars (py ".") c = true <-> c = 46%N.
Proof.
  unfold inchars. rewrite bool_decide_eq_true. simpl.
  rewrite list_elem_of_singleton. done.
Qed.

Lemma inchars_dot_false (c : N) : inchars (py ".") c = false <-> c <> 46%N.
Proof.
  rewrite <- inchars_dot. destruct (inchars (py ".") c); split; congruence.
Qed.

(** ** The stable sort on a boolean key *)




(** ** [setup] *)

(** C7, as the code has it: with nothing persisted, [setup] loads an empty
    list, an empty record index and, for both timestamps, the text
    [2000-01-01 00:00:00], parsed into midnight of 1 January 2000. *)
Theorem setup_defaults :
  setup empty_db
  = Ok (mkMemory [] (mkdatetime 2000 1 1 0 0 0 0)
                 empty_data (mkdatetime 2000 1 1 0 0 0 0)).
Proof. reflexivity. Qed.

(** C7, as stated, fails: the default timestamps are not in the 1970s. *)
Lemma setup_default_not_1970s :
  ~ (exists m, setup empty_db = Ok m
               /\ (1970 <= year (tld_list_cache_updated m) <= 1979)%Z
               /\ (1970 <= year (tld_data_cache_updated m) <= 1979)%Z).
Proof.
  intros (m & Hm & Hy & _). vm_compute in Hm.
  injection Hm as <-. simpl in Hy. lia.
Qed.

(** ** [_update_tld_data] *)

Section UpdateFacts.
Context `{Platform}.
Variable env : Env.

Lemma cache_updated_name (ds : dataset) (m : Memory) :
  cache_updated (dataset_name ds) m = Some (updated_at ds m).
Proof. by destruct ds. Qed.

(** The skeleton of [_update_tld_data] for a known dataset: read the clock,
    then skip or fetch. *)
Lemma update_unfold (ds : dataset) (w : World) :
  _update_tld_data env (dataset_name ds) w
  = let now := clock env (tick w) in
    let age := days (datetime_sub now (updated_at ds (memory w))) in
    let w1 := mkWorld (memory w) (trace w) (S (tick w)) in
    if (age <? 7)%Z then
      (Ok tt,
       mkWorld (memory w)
               (Log (DebugCacheFresh (dataset_name ds) age) :: trace w)
               (S (tick w)))
    else
      match ds with
      | DList => fetch_list env now w1
      | DData => fetch_data env now w1
      end.
Proof.
  unfold _update_tld_data, mbind, M_bind, bind, read_memory, datetime_now.
  rewrite cache_updated_name. cbv zeta.
  destruct (_ <? 7)%Z; [done|]. by destruct ds.
Qed.

Lemma fetch_list_unfold (now : datetime) (w : World) :
  fetch_list env now w
  = match iana_get env (tick w) with
    | RequestFailed =>
        (Ok tt, mkWorld (memory w)
                        (Log WarnFetchList :: HttpGet DList :: trace w)
                        (S (tick w)))
    | Response text =>
        (Ok tt, mkWorld (set_list (parse_iana_list text) now (memory w))
                        (Log (DebugUpdated (py "list"))
                         :: HttpGet DList :: trace w)
                        (S (tick w)))
    end.
Proof.
  unfold fetch_list, mbind, M_bind, bind, get_iana. simpl.
  by destruct (iana_get env (tick w)).
Qed.

(** The handled failures of the data fetch: a warning and nothing else. *)
Lemma fetch_data_failure (now : datetime) (w : World) :
  fetch_fails env DData (tick w) ->
  fetch_data env now w
  = (Ok tt, mkWorld (memory w)
                    (Log WarnFetchData :: HttpGet DData :: trace w)
                    (S (tick w))).
Proof.
  unfold fetch_data, mbind, M_bind, bind, get_wiki. simpl.
  intros [-> | [-> | (j & -> & ->)]]; reflexivity.
Qed.

(** Every step only adds effects in front of the trace. *)
Lemma grows_bind {A B} (m : M A) (k : A -> M B) :
  (forall w, exists new, extends_by new w (m w).2) ->
  (forall a w, exists new, extends_by new w (k a w).2) ->
  forall w, exists new, extends_by new w ((m ≫= k) w).2.
Proof.
  intros Hm Hk w. unfold mbind, M_bind, bind.
  destruct (Hm w) as [n1 E1]. destruct (m w) as [[a|e] w1]; simpl in *.
  - destruct (Hk a w1) as [n2 E2]. exists (n2 ++ n1).
    unfold extends_by in *. by rewrite E2, E1, app_assoc.
  - by exists n1.
Qed.

Lemma grows_emit (e : effect) (w : World) :
  exists new, extends_by new w (emit e w).2.
Proof. by exists [e]. Qed.

Lemma grows_emit_logs (l : list logrec) (w : World) :
  exists new, extends_by new w (emit_logs l w).2.
Proof. by exists (reverse (map Log l)). Qed.

Lemma grows_pure {A} (m : M A) :
  (forall w, (m w).2 = w) -> forall w, exists new, extends_by new w (m w).2.
Proof. intros E w. exists []. by rewrite E. Qed.

Lemma grows_write (m : Memory) (w : World) :
  exists new, extends_by new w (write_memory m w).2.
Proof. by exists []. Qed.

Lemma grows_parse_and_store (j : json) (now : datetime) (w : World) :
  exists new, extends_by new w (parse_and_store j now w).2.
Proof.
  destruct j; try (by exists []). unfold parse_and_store.
  revert w. apply grows_bind; [by apply grows_pure|]. intros p.
  destruct (get_processed_data p) as [r log].
  apply grows_bind; [apply grows_emit_logs|]. intros _.
  apply grows_bind; [by apply grows_pure|]. intros pd.
  apply grows_bind; [by apply grows_pure|]. intros m.
  apply grows_bind; [apply grows_write|]. intros _. apply grows_emit.
Qed.

Lemma fetch_data_trace (now : datetime) (w : World) :
  exists new,
    trace (fetch_data env now w).2 = new ++ HttpGet DData :: trace w.
Proof.
  unfold fetch_data, mbind, M_bind, bind, get_wiki. simpl.
  set (w1 := mkWorld _ _ _).
  assert (Hw : forall m : M unit,
             (exists new, extends_by new w1 (m w1).2) ->
             exists new, trace (m w1).2 = new ++ HttpGet DData :: trace w).
  { intros m [new E]. by exists new. }
  destruct (wiki_get env (tick w)) as [|[j|]];
    [apply Hw, grows_emit | | apply Hw, grows_emit].
  destruct (response_text j) as [t|[]];
    first [apply Hw, grows_emit | apply Hw, grows_parse_and_store
          | by exists []].
Qed.

Lemma fetch_list_trace (now : datetime) (w : World) :
  exists new,
    trace (fetch_list env now w).2 = new ++ HttpGet DList :: trace w.
Proof.
  rewrite fetch_list_unfold.
  destruct (iana_get env (tick w)); by eexists [_].
Qed.

(** The effects of one update: the request of the dataset is among them
    exactly when the cache is at least seven days old. *)
Lemma update_fetches (ds : dataset) (w : World) :
  exists new,
    extends_by new w (_update_tld_data env (dataset_name ds) w).2
    /\ (HttpGet ds ∈ new
        <-> (7 <= days (datetime_sub (clock env (tick w))
                                     (updated_at ds (memory w))))%Z).
Proof.
  rewrite update_unfold. cbv zeta.
  destruct (Z.ltb_spec
              (days (datetime_sub (clock env (tick w))
                                  (updated_at ds (memory w)))) 7) as [Hlt|Hge].
  - eexists [_]. split; [reflexivity|].
    rewrite list_elem_of_singleton. split; [discriminate | lia].
  - assert (exists new,
               trace (match ds with
                      | DList =>
                          fetch_list env (clock env (tick w))
                            (mkWorld (memory w) (trace w) (S (tick w)))
                      | DData =>
                          fetch_data env (clock env (tick w))
                            (mkWorld (memory w) (trace w) (S (tick w)))
                      end).2
               = new ++ HttpGet ds :: trace w) as [new E].
    { destruct ds;
        [exact (fetch_list_trace _ (mkWorld _ _ _))
        | exact (fetch_data_trace _ (mkWorld _ _ _))]. }
    exists (new ++ [HttpGet ds]). split.
    + unfold extends_by. rewrite E. by rewrite <- app_assoc.
    + split; [done|]. intros _. apply elem_of_app. right.
      by apply list_elem_of_singleton.
Qed.
End UpdateFacts.

(** C3: an update of either dataset issues its request exactly when
    [(now - updatedAt).days >= 7]; it does not at an age of exactly six
    days and does at an age of exactly seven days. *)
Theorem stale_iff_seven_days `{Platform} (env : Env) (ds : dataset) (w : World) :
  let age := datetime_sub (clock env (tick w)) (updated_at ds (memory w)) in
  exists new,
    extends_by new w (_update_tld_data env (dataset_name ds) w).2
    /\ (HttpGet ds ∈ new <-> (7 <= days age)%Z)
    /\ (age = mktimedelta 6 0 0 -> HttpGet ds ∉ new)
    /\ (age = mktimedelta 7 0 0 -> HttpGet ds ∈ new).
Proof.
  intros age. destruct (update_fetches env ds w) as (new & E & Hiff).
  fold age in Hiff. exists new. split; [exact E|]. split; [exact Hiff|].
  split; intros Hage.
  - rewrite Hiff, Hage. simpl. lia.
  - rewrite Hiff, Hage. simpl. lia.
Qed.

Lemma stale_iff_seven_days_witness :
  exists new,
    extends_by new blank_world
      (@_update_tld_data ascii_platform offline_env (py "list") blank_world).2
    /\ HttpGet DList ∈ new.
Proof.
  destruct (@stale_iff_seven_days ascii_platform offline_env DList blank_world)
    as (new & E & _ & _ & H7).
  exists new. split; [exact E | apply H7; reflexivity].
Defined.

(** C2: when the request of an update fails (the transport raises, the body
    does not decode, or a key of the path is missing), the update returns
    normally and [bot.memory], hence the cached dataset and its timestamp,
    is what it was.  The request is the interaction after the clock read. *)
Theorem failed_fetch_keeps_cache `{Platform} (env : Env) (ds : dataset)
    (w : World) :
  fetch_fails env ds (S (tick w)) ->
  (_update_tld_data env (dataset_name ds) w).1 = Ok tt
  /\ memory (_update_tld_data env (dataset_name ds) w).2 = memory w.
Proof.
  intros Hf. rewrite update_unfold. cbv zeta.
  destruct (_ <? 7)%Z; [done|]. destruct ds.
  - rewrite fetch_list_unfold. simpl in *. by rewrite Hf.
  - by rewrite fetch_data_failure.
Qed.

Lemma failed_fetch_keeps_cache_witness :
  (@_update_tld_data ascii_platform offline_env (py "data") blank_world).1
  = Ok tt
  /\ memory (@_update_tld_data ascii_platform offline_env (py "data")
               blank_world).2
     = memory blank_world.
Proof.
  apply (@failed_fetch_keeps_cache ascii_platform offline_env DData blank_world).
  left. reflexivity.
Defined.

(** ** [gettld] *)

Section ResolverFacts.
Context `{Platform}.
Variable env : Env.

Lemma gettld_unfold (raw : pystr) (w : World) :
  raw <> [] ->
  gettld env (Some raw) w
  = (ensure_list env ≫= fun _ => validate_and_show env (normalize raw)) w.
Proof. by destruct raw. Qed.

Lemma ensure_list_empty (w : World) :
  tld_list_cache (memory w) = [] ->
  ensure_list env w = _update_tld_data env (py "list") w.
Proof.
  intros E. unfold ensure_list, mbind, M_bind, bind, read_memory.
  by rewrite E.
Qed.

Lemma show_record_no_details (tld : pystr) (w : World) :
  data_get (tld_data_cache (memory w)) tld = None
  \/ data_get (tld_data_cache (memory w)) tld = Some [] ->
  show_record tld w = (Ok tt, said (msg_no_details tld) w).
Proof.
  unfold show_record, mbind, M_bind, bind, read_memory.
  by intros [-> | ->].
Qed.
End ResolverFacts.

(** C8, as the code has it: with an empty suffix list, [gettld] runs the
    update of the list before it validates the token, and that update
    issues the request exactly when the list timestamp is at least seven
    days old. *)
Theorem empty_list_runs_update `{Platform} (env : Env) (raw : pystr)
    (w : World) :
  raw <> [] ->
  tld_list_cache (memory w) = [] ->
  gettld env (Some raw) w
  = (_update_tld_data env (py "list")
       ≫= fun _ => validate_and_show env (normalize raw)) w
  /\ exists new,
       extends_by new w (_update_tld_data env (py "list") w).2
       /\ (HttpGet DList ∈ new
           <-> (7 <= days (datetime_sub (clock env (tick w))
                             (tld_list_cache_updated (memory w))))%Z).
Proof.
  intros Hraw Hempty. split.
  - rewrite gettld_unfold by done. unfold mbind, M_bind, bind.
    by rewrite ensure_list_empty.
  - exact (update_fetches env DList w).
Qed.

Lemma empty_list_runs_update_witness :
  @gettld ascii_platform offline_env (Some (py "ru")) blank_world
  = (@_update_tld_data ascii_platform offline_env (py "list")
       ≫= fun _ => @validate_and_show ascii_platform offline_env
                     (@normalize ascii_platform (py "ru"))) blank_world.
Proof.
  apply (@empty_list_runs_update ascii_platform offline_env (py "ru")
           blank_world); [discriminate | reflexivity].
Defined.

(** C8, as stated, fails.  A first call fetches a list without entries, so
    the list cache stays empty and its timestamp is fresh; the second call
    finds the list cache empty and makes no request. *)
Lemma empty_list_without_fetch :
  let w1 :=
    (@gettld ascii_platform empty_body_env (Some (py "ru")) blank_world).2 in
  tld_list_cache (memory w1) = []
  /\ exists new,
       extends_by new w1
         (@gettld ascii_platform empty_body_env (Some (py "ru")) w1).2
       /\ HttpGet DList ∉ new.
Proof.
  intros w1. split; [vm_compute; reflexivity|].
  exists [Reply (msg_not_valid (py "ru"));
          Log (DebugCacheFresh (py "list") 0)].
  split; [vm_compute; reflexivity|]. intros Hin.
  repeat (apply elem_of_cons in Hin as [Hin|Hin]; [discriminate|]).
  by apply elem_of_nil in Hin.
Qed.

(** C10: a validated token whose record is empty gets the answer
    [exists, but no details], and nothing else is said; a token absent
    from the index gets the same answer. *)
Theorem empty_record_no_details `{Platform} (env : Env) (raw ascii : pystr)
    (w w1 : World) :
  raw <> [] ->
  ensure_list env w = (Ok tt, w1) ->
  idna_ToASCII (normalize raw) = Some ascii ->
  normalize raw ∈ tld_list_cache (memory w1)
  \/ ascii ∈ tld_list_cache (memory w1) ->
  data_get (tld_data_cache (memory w1)) (normalize raw) = Some [] ->
  gettld env (Some raw) w
  = (Ok tt, said (msg_no_details (normalize raw)) w1)
  /\ forall w2,
       data_get (tld_data_cache (memory w2)) (normalize raw) = None ->
       show_record (normalize raw) w2
       = (Ok tt, said (msg_no_details (normalize raw)) w2).
Proof.
  intros Hraw Hlist Hascii Hvalid Hrec. split.
  - rewrite gettld_unfold by done. unfold mbind, M_bind, bind.
    rewrite Hlist. unfold validate_and_show, mbind, M_bind, bind, read_memory.
    rewrite Hascii.
    assert (bool_decide (normalize raw ∈ tld_list_cache (memory w1))
            || bool_decide (ascii ∈ tld_list_cache (memory w1)) = true) as ->.
    { apply orb_true_iff.
      destruct Hvalid; [left | right]; by apply bool_decide_eq_true. }
    simpl. unfold ensure_data, mbind, M_bind, bind, read_memory.
    rewrite bool_decide_eq_false_2.
    + simpl. apply show_record_no_details. by right.
    + intros Hempty. unfold data_get in Hrec. rewrite Hempty in Hrec.
      by rewrite lookup_empty in Hrec.
  - intros w2 Habs. apply show_record_no_details. by left.
Qed.

Lemma empty_record_no_details_witness :
  @gettld ascii_platform offline_env (Some (py "ru")) ru_world
  = (Ok tt, said (msg_no_details (py "ru")) ru_world).
Proof.
  apply (@empty_record_no_details ascii_platform offline_env (py "ru")
           (py "ru") ru_world ru_world).
  - discriminate.
  - reflexivity.
  - reflexivity.
  - left. by apply list_elem_of_singleton.
  - reflexivity.
Defined.

(** C6, as the code has it: the token used for validation and lookup is the
    raw token without its leading and trailing dots, lowercased; what lies
    between them is kept. *)
Theorem normalize_strips_both_ends `{Platform} (env : Env) (raw : pystr)
    (w : World) :
  raw <> [] ->
  exists lead core trail,
    raw = lead ++ core ++ trail
    /\ Forall (fun c => c = 46%N) lead
    /\ Forall (fun c => c = 46%N) trail
    /\ (forall c, head core = Some c -> c <> 46%N)
    /\ (forall c, last core = Some c -> c <> 46%N)
    /\ normalize raw = str_lower core
    /\ gettld env (Some raw) w
       = (ensure_list env ≫= fun _ => validate_and_show env (str_lower core)) w.
Proof.
  intros Hraw.
  destruct (strip_by_split (inchars (py ".")) raw)
    as (lead & trail & E & Hl & Ht & Hh & Hla).
  exists lead, (strip_chars (py ".") raw), trail.
  split; [exact E|].
  split; [eapply Forall_impl; [exact Hl | intros c; apply inchars_dot]|].
  split; [eapply Forall_impl; [exact Ht | intros c; apply inchars_dot]|].
  split; [intros c Hc; by apply inchars_dot_false, Hh|].
  split; [intros c Hc; by apply inchars_dot_false, Hla|].
  split; [reflexivity | by apply gettld_unfold].
Qed.

Lemma normalize_strips_both_ends_witness :
  exists lead core trail,
    py "..Ru." = lead ++ core ++ trail
    /\ @normalize ascii_platform (py "..Ru.") = ascii_lower core.
Proof.
  destruct (@normalize_strips_both_ends ascii_platform offline_env
              (py "..Ru.") blank_world)
    as (lead & core & trail & E & _ & _ & _ & _ & En & _); [discriminate|].
  exists lead, core, trail. split; [exact E | exact En].
Defined.

(** C6, as stated, fails: a trailing dot is removed as well. *)
Lemma normalize_drops_trailing_dot :
  @normalize ascii_platform (py "ru.") = py "ru"
  /\ @normalize ascii_platform (py "ru.")
     <> @spec_normalize ascii_platform (py "ru.").
Proof. split; [reflexivity | discriminate]. Qed.

(** ** The record indexer *)

Section IndexerFacts.
Context `{Platform}.

Lemma truthy_spec (k : option pystr) :
  truthy k = true <-> exists c t, k = Some (c :: t).
Proof.
  destruct k as [[|c t]|]; simpl; split; try done; try (intros (?&?&?); done).
  by exists c, t.
Qed.

Lemma keyless_row_keys (r : row) : keyless r -> row_keys r = (None, None).
Proof.
  unfold keyless, row_keys. induction 1 as [|c r [Ht Hi] _ IH]; simpl; [done|].
  by rewrite Ht, Hi.
Qed.

Lemma keyless_no_keys (r : row) : keyless r -> row_key_list r = [].
Proof. intros Hr. unfold row_key_list. by rewrite keyless_row_keys. Qed.

Lemma lookup_store (key : option pystr) (a : nat) (ix : gmap pystr nat)
    (k : pystr) :
  store key a ix !! k
  = if decide (k ∈ (if truthy key then option_list key else []))
    then Some a else ix !! k.
Proof.
  destruct key as [[|c t]|]; cbn [store truthy option_list];
    try (rewrite decide_False; [done | apply not_elem_of_nil]).
  change (option_list (Some (c :: t))) with [c :: t]. rewrite lookup_insert.
  split_decide; try done; rewrite list_elem_of_singleton in *; congruence.
Qed.

(** [index_row] in terms of the keys it writes. *)
Lemma index_row_skip (h r : row) (d : TldData) (log : list logrec) :
  row_key_list r = [] ->
  index_row h (d, log) r = (d, log ++ [WarnSkipRow r]).
Proof.
  unfold row_key_list, index_row. destruct (row_keys r) as [key idn].
  by destruct key as [[|??]|], idn as [[|??]|].
Qed.

Lemma index_row_store (h r : row) (d : TldData) (log : list logrec) :
  row_key_list r <> [] ->
  (index_row h (d, log) r).2 = log
  /\ objs (index_row h (d, log) r).1 = objs d ++ [zipped h r]
  /\ forall k,
       index (index_row h (d, log) r).1 !! k
       = if decide (k ∈ row_key_list r) then Some (length (objs d))
         else index d !! k.
Proof.
  unfold row_key_list, index_row. destruct (row_keys r) as [key idn].
  intros Hkeys.
  assert (truthy key || truthy idn = true) as ->.
  { destruct (truthy key), (truthy idn); done. }
  simpl. split; [done|]. split; [done|]. intros k.
  rewrite !lookup_store.
  split_decide; try done; rewrite elem_of_app in *; tauto.
Qed.

(** The log is only appended to, and the data do not depend on it. *)
Lemma index_job_log (d : TldData) (log : list logrec) (j : row * row) :
  index_job (d, log) j
  = ((index_job (d, []) j).1, log ++ (index_job (d, []) j).2).
Proof.
  unfold index_job, index_row. destruct (row_keys j.2) as [key idn].
  destruct (negb _); simpl; [done | by rewrite app_nil_r].
Qed.

Lemma fold_jobs_log (J : list (row * row)) (d : TldData)
    (log : list logrec) :
  fold_left index_job J (d, log)
  = ((fold_left index_job J (d, [])).1,
     log ++ (fold_left index_job J (d, [])).2).
Proof.
  revert d log. induction J as [|j J IH]; intros d log; cbn [fold_left].
  - simpl. by rewrite app_nil_r.
  - rewrite index_job_log. destruct (index_job (d, []) j) as [d1 l1]. simpl.
    rewrite IH. rewrite (IH d1 l1). simpl. by rewrite app_assoc.
Qed.

Lemma fold_rows_jobs (h : row) (rs : list row) (st : TldData * list logrec) :
  fold_left (index_row h) rs st
  = fold_left index_job ((fun r => (h, r)) <$> rs) st.
Proof. revert st. induction rs as [|r rs IH]; intros st; simpl; [done|]. apply IH. Qed.

Lemma jobs_app (ts1 ts2 : list table) : jobs (ts1 ++ ts2) = jobs ts1 ++ jobs ts2.
Proof. unfold jobs. apply flat_map_app. Qed.

Lemma jobs_cons (h : row) (rs : list row) (ts : list table) :
  jobs ((h :: rs) :: ts) = ((fun r => (h, r)) <$> rs) ++ jobs ts.
Proof. done. Qed.

Lemma jobs_rows (ts : list table) : (jobs ts).*2 = flat_map (drop 1) ts.
Proof.
  induction ts as [|t ts IH]; [done|].
  change (jobs (t :: ts)) with (((fun r => (hd [] t, r)) <$> drop 1 t) ++ jobs ts).
  rewrite fmap_app, IH. simpl. f_equal.
  rewrite <- list_fmap_compose. apply list_fmap_id.
Qed.

(** Tables that all have a heading row are indexed job by job. *)
Lemma index_tables_app (st : TldData * list logrec) (ts1 ts2 : list table) :
  Forall (fun t => t <> []) ts1 ->
  index_tables st (ts1 ++ ts2)
  = index_tables (fold_left index_job (jobs ts1) st) ts2.
Proof.
  intros Hne. revert st. induction Hne as [|t ts1 Ht _ IH]; intros st; [done|].
  destruct t as [|h rs]; [done|]. simpl app.
  cbn [index_tables]. rewrite IH, jobs_cons, fold_left_app.
  by rewrite fold_rows_jobs.
Qed.

Lemma index_tables_jobs (st : TldData * list logrec) (ts : list table) :
  Forall (fun t => t <> []) ts ->
  index_tables st ts
  = (Ok (fold_left index_job (jobs ts) st).1,
     (fold_left index_job (jobs ts) st).2).
Proof.
  intros Hne. rewrite <- (app_nil_r ts) at 1. by rewrite index_tables_app.
Qed.

Lemma index_tables_log (ts : list table) (d : TldData) (log : list logrec) :
  index_tables (d, log) ts
  = ((index_tables (d, []) ts).1, log ++ (index_tables (d, []) ts).2).
Proof.
  revert d log. induction ts as [|t ts IH]; intros d log.
  - simpl. by rewrite app_nil_r.
  - destruct t as [|h rs]; simpl; [by rewrite app_nil_r|].
    rewrite !fold_rows_jobs, fold_jobs_log.
    destruct (fold_left index_job _ (d, [])) as [d1 l1]. simpl.
    rewrite IH, (IH d1 l1). simpl. by rewrite app_assoc.
Qed.

(** What a run of jobs does to the record objects and to the index. *)
Lemma fold_jobs_objs (J : list (row * row)) (st : TldData * list logrec) :
  objs (fold_left index_job J st).1
  = objs st.1 ++ ((fun j => zipped j.1 j.2) <$> filter (fun j => keyed j.2) J).
Proof.
  revert st. induction J as [|j J IH]; intros st; cbn [fold_left].
  - simpl. by rewrite app_nil_r.
  - rewrite IH. destruct st as [d log]. unfold index_job.
    destruct (decide (row_key_list j.2 = [])) as [E|E].
    + rewrite index_row_skip by done.
      by rewrite filter_cons_False by (unfold keyed; tauto).
    + destruct (index_row_store j.1 j.2 d log E) as (_ & -> & _).
      rewrite filter_cons_True by done. simpl. by rewrite <- app_assoc.
Qed.

Lemma fold_jobs_untouched (J : list (row * row))
    (st : TldData * list logrec) (k : pystr) :
  Forall (fun j => k ∉ row_key_list j.2) J ->
  index (fold_left index_job J st).1 !! k = index st.1 !! k.
Proof.
  intros HJ. revert st. induction HJ as [|j J Hj _ IH]; intros st; [done|].
  cbn [fold_left]. rewrite IH. destruct st as [d log]. unfold index_job.
  destruct (decide (row_key_list j.2 = [])) as [E|E].
  - by rewrite index_row_skip.
  - destruct (index_row_store j.1 j.2 d log E) as (_ & _ & ->).
    by rewrite decide_False.
Qed.

(** The last job that writes a key decides what the key holds. *)
Lemma fold_jobs_last_writer (J1 J2 : list (row * row)) (h r : row)
    (st : TldData * list logrec) (k : pystr) :
  k ∈ row_key_list r ->
  Forall (fun j => k ∉ row_key_list j.2) J2 ->
  let d := (fold_left index_job (J1 ++ (h, r) :: J2) st).1 in
  let a := length (objs (fold_left index_job J1 st).1) in
  index d !! k = Some a /\ objs d !! a = Some (zipped h r).
Proof.
  intros Hk HJ2 d a. subst d.
  rewrite fold_left_app. cbn [fold_left].
  assert (E : row_key_list r <> []).
  { intros E. rewrite E in Hk. by apply elem_of_nil in Hk. }
  destruct (fold_left index_job J1 st) as [d1 l1].
  change (index_job (d1, l1) (h, r)) with (index_row h (d1, l1) r).
  destruct (index_row_store h r d1 l1 E) as (_ & Hobjs & Hix).
  subst a. cbn [fst]. split.
  - rewrite fold_jobs_untouched by done. rewrite Hix. by rewrite decide_True.
  - rewrite fold_jobs_objs, Hobjs, <- app_assoc.
    rewrite lookup_app_r by lia. by rewrite Nat.sub_diag.
Qed.


Lemma zipped_no_empty_values (h r : row) : no_empty_values (zipped h r).
Proof.
  intros f v Hin. unfold zipped in Hin.
  by apply list_elem_of_filter in Hin as [? _].
Qed.
End IndexerFacts.

(** ** The extractor on a plain table *)

Section ExtractorFacts.
Context `{Platform}.

Lemma run_events_app (p : Parser) (es1 es2 : list event) :
  run_events p (es1 ++ es2)
  = res_bind (run_events p es1) (fun p' => run_events p' es2).
Proof.
  revert p. induction es1 as [|e es1 IH]; intros p; simpl; [done|].
  destruct (dispatch p e); simpl; [apply IH | done].
Qed.

(** Between cells, with the table open: a row of two cells adds its two
    cleaned cells as one row. *)
Lemma run_row_events (tag : string) (sep : pystr) (cells : pystr * pystr)
    (rs : list row) (ts : list table) :
  tag = "td"%string \/ tag = "th"%string ->
  run_events (mkParser false false [] [] rs (Raw ts))
             (row_events tag sep cells)
  = Ok (mkParser false false [] [] (rs ++ [extracted cells]) (Raw ts)).
Proof. by intros [-> | ->]. Qed.

Lemma run_body_events (sep : pystr) (body : list (pystr * pystr))
    (rs : list row) (ts : list table) :
  run_events (mkParser false false [] [] rs (Raw ts))
             (flat_map (row_events "td" sep) body)
  = Ok (mkParser false false [] [] (rs ++ (extracted <$> body)) (Raw ts)).
Proof.
  revert rs. induction body as [|cells body IH]; intros rs.
  - simpl. by rewrite app_nil_r.
  - change (flat_map (row_events "td" sep) (cells :: body))
      with (row_events "td" sep cells ++ flat_map (row_events "td" sep) body).
    rewrite run_events_app, run_row_events by (by left).
    cbn [res_bind]. rewrite IH. by rewrite <- app_assoc.
Qed.

Lemma run_table_events (cls sep : pystr) (h : pystr * pystr)
    (body : list (pystr * pystr)) :
  contains (py "wikitable") cls = true ->
  run_events new_parser (table_events cls sep h body)
  = Ok (mkParser false true [] [] []
                 (Raw [extracted h :: (extracted <$> body)])).
Proof.
  intros Hcls. unfold table_events.
  rewrite run_events_app.
  assert (run_events new_parser
            [StartTag (py "table") [(py "class", Some cls)]; Data sep]
          = Ok (mkParser false false [] [] [] (Raw []))) as ->.
  { change (run_events new_parser
              [StartTag (py "table") [(py "class", Some cls)]; Data sep])
      with (res_bind
              (Ok (if contains (py "wikitable") cls
                   then set_skipping false new_parser else new_parser))
              (fun p => run_events p [Data sep])).
    by rewrite Hcls. }
  cbn [res_bind]. rewrite run_events_app, run_row_events by (by right).
  cbn [res_bind]. rewrite run_events_app, run_body_events.
  reflexivity.
Qed.
End ExtractorFacts.

(** ** The extractor on marked-up tables *)

Section MarkupFacts.
Context `{Platform}.



















End MarkupFacts.

(** ** First match wins *)

Section RowKeyFacts.
Context `{Platform}.





Lemma key_in_list (r : row) (k : pystr) :
  k <> [] ->
  (row_keys r).1 = Some k \/ (row_keys r).2 = Some k ->
  k ∈ row_key_list r.
Proof.
  intros Hk. unfold row_key_list. destruct (row_keys r) as [key idn].
  destruct k as [|c t]; [done|]. simpl.
  intros [-> | ->]; apply elem_of_app; [left | right]; by left.
Qed.






End RowKeyFacts.

(** ** [get_processed_data] *)

Section ProcessedFacts.
Context `{Platform}.

Lemma get_processed_data_raw (p : Parser) (ts : list table) :
  tables p = Raw ts ->
  get_processed_data p
  = match index_tables
            (empty_data,
             [Debug "Processed TLD data requested.";
              Debug "Ensuring all buffered data has been parsed.";
              Debug "Processing tables."]) ts with
    | (Ok d, log) =>
        (Ok (set_tables (Processed d) p, d),
         log ++ [Debug "Finished processing TLD data; returning it."])
    | (Raise e, log) => (Raise e, log)
    end.
Proof. unfold get_processed_data. by intros ->. Qed.

(** With a heading row in every table, the result is the index built
    job by job. *)
Lemma get_processed_data_jobs (p : Parser) (ts : list table) :
  tables p = Raw ts ->
  Forall (fun t => t <> []) ts ->
  (get_processed_data p).1
  = Ok (set_tables
          (Processed (fold_left index_job (jobs ts) (empty_data, [])).1) p,
        (fold_left index_job (jobs ts) (empty_data, [])).1).
Proof.
  intros Hp Hts. rewrite (get_processed_data_raw p ts Hp).
  rewrite index_tables_jobs by done. by rewrite fold_jobs_log.
Qed.
End ProcessedFacts.

(** C9: a data row no cell of which starts with a [.suffix] or an [xn--]
    token raises nothing and leaves nothing behind: the result is the one
    obtained without the row, a warning naming the row is logged, and when
    every table has a heading row the result is a record index. *)
Theorem keyless_row_skipped `{Platform} (p : Parser) (tpre tpost : list table)
    (h r : row) (pre post : list row) :
  tables p = Raw (tpre ++ (h :: pre ++ r :: post) :: tpost) ->
  Forall (fun t => t <> []) tpre ->
  keyless r ->
  (get_processed_data p).1
  = (get_processed_data
       (set_tables (Raw (tpre ++ (h :: pre ++ post) :: tpost)) p)).1
  /\ WarnSkipRow r ∈ (get_processed_data p).2
  /\ (Forall (fun t => t <> []) tpost ->
      exists d, (get_processed_data p).1 = Ok (set_tables (Processed d) p, d)).
Proof.
  intros Hp Hpre Hr.
  split; [|split].
  - rewrite (get_processed_data_raw p _ Hp).
    rewrite (get_processed_data_raw (set_tables _ p) _ eq_refl).
    rewrite !index_tables_app by done. cbn [index_tables].
    rewrite !fold_left_app. cbn [fold_left].
    destruct (fold_left (index_row h) pre _) as [d2 l2].
    rewrite index_row_skip by (apply keyless_no_keys; exact Hr).
    rewrite !fold_rows_jobs.
    rewrite (fold_jobs_log _ d2 (l2 ++ _)), (fold_jobs_log _ d2 l2).
    destruct (fold_left index_job _ (d2, [])) as [d3 l3]. cbn [fst snd].
    rewrite (index_tables_log tpost d3 ((l2 ++ _) ++ l3)).
    rewrite (index_tables_log tpost d3 (l2 ++ l3)).
    by destruct (index_tables (d3, []) tpost) as [[d|e] l].
  - rewrite (get_processed_data_raw p _ Hp).
    rewrite index_tables_app by done. cbn [index_tables].
    rewrite fold_left_app. cbn [fold_left].
    destruct (fold_left (index_row h) pre _) as [d2 l2].
    rewrite index_row_skip by (apply keyless_no_keys; exact Hr).
    rewrite fold_rows_jobs, fold_jobs_log.
    destruct (fold_left index_job _ (d2, [])) as [d3 l3]. cbn [fst snd].
    rewrite index_tables_log.
    destruct (index_tables (d3, []) tpost) as [[d|e] l]; cbn [fst snd];
      rewrite !elem_of_app, list_elem_of_singleton; tauto.
  - intros Hpost. eexists. apply get_processed_data_jobs; [exact Hp|].
    apply Forall_app. split; [done|]. by constructor.
Qed.

Lemma keyless_row_skipped_witness :
  WarnSkipRow [py "none"; py "here"]
  ∈ (@get_processed_data ascii_platform (parser_with skip_tables)).2.
Proof.
  apply (@keyless_row_skipped ascii_platform (parser_with skip_tables) [] []
           [py "Name"; py "Entity"] [py "none"; py "here"]
           [[py ".aa"; py "first"]] [[py ".cc"; py "third"]]).
  - reflexivity.
  - constructor.
  - repeat constructor.
Defined.

(** C4, as the code has it: a row that gives both a plain key and an IDNA
    key stores one record object under both; the two keys still hold that
    object in the result when no later row gives either of them. *)
Theorem shared_record_under_both_keys `{Platform} (p : Parser)
    (tpre tpost : list table) (h r : row) (pre post : list row)
    (k ki : pystr) :
  tables p = Raw (tpre ++ (h :: pre ++ r :: post) :: tpost) ->
  Forall (fun t => t <> []) tpre ->
  Forall (fun t => t <> []) tpost ->
  row_keys r = (Some k, Some ki) ->
  k <> [] ->
  ki <> [] ->
  Forall (fun r' => (k ∉ row_key_list r') /\ (ki ∉ row_key_list r'))
         (later_rows post tpost) ->
  exists d a,
    (get_processed_data p).1 = Ok (set_tables (Processed d) p, d)
    /\ index d !! k = Some a
    /\ index d !! ki = Some a
    /\ objs d !! a = Some (zipped h r).
Proof.
  intros Hp Hpre Hpost Hkeys Hk Hki Hlater.
  assert (Hts : Forall (fun t : table => t <> [])
                       (tpre ++ (h :: pre ++ r :: post) :: tpost)).
  { apply Forall_app. split; [done|]. by constructor. }
  rewrite (get_processed_data_jobs p _ Hp Hts).
  assert (Hjobs : jobs (tpre ++ (h :: pre ++ r :: post) :: tpost)
                  = (jobs tpre ++ ((fun r => (h, r)) <$> pre))
                    ++ (h, r) :: (((fun r => (h, r)) <$> post) ++ jobs tpost)).
  { rewrite jobs_app, jobs_cons, fmap_app, fmap_cons.
    by rewrite <- !app_assoc. }
  assert (Hrows : forall k',
             Forall (fun r' => k' ∉ row_key_list r') (later_rows post tpost) ->
             Forall (fun j : row * row => k' ∉ row_key_list j.2)
                    (((fun r => (h, r)) <$> post) ++ jobs tpost)).
  { intros k' Hk'. unfold later_rows in Hk'. rewrite <- jobs_rows in Hk'.
    rewrite Forall_forall in Hk'. apply Forall_forall. intros j Hj.
    apply Hk'. apply elem_of_app in Hj as [Hj|Hj]; apply elem_of_app.
    - left. apply list_elem_of_fmap in Hj as (r' & -> & Hr'). exact Hr'.
    - right. by apply list_elem_of_fmap_2. }
  assert (Hin : k ∈ row_key_list r /\ ki ∈ row_key_list r).
  { split; apply key_in_list; try done; rewrite Hkeys; [by left | by right]. }
  destruct Hin as [Hink Hinki]. rewrite Hjobs.
  apply Forall_and in Hlater as [Hlk Hlki].
  set (J1 := jobs tpre ++ ((fun r => (h, r)) <$> pre)).
  pose proof (fold_jobs_last_writer J1 _ h r (empty_data, []) k Hink
                (Hrows k Hlk)) as [Hixk Hobj].
  pose proof (fold_jobs_last_writer J1 _ h r (empty_data, []) ki Hinki
                (Hrows ki Hlki)) as [Hixki _].
  eauto 10.
Qed.

Lemma shared_record_under_both_keys_witness :
  exists d a,
    (@get_processed_data ascii_platform
       (parser_with [[ [py "Domain"; py "IDN"]; [py ".aa"; py "xn--bb"] ]])).1
    = Ok (set_tables (Processed d)
            (parser_with [[ [py "Domain"; py "IDN"]; [py ".aa"; py "xn--bb"] ]]),
          d)
    /\ index d !! py "aa" = Some a
    /\ index d !! py "xn--bb" = Some a
    /\ objs d !! a
       = Some (zipped [py "Domain"; py "IDN"]
                 [py ".aa"; py "xn--bb"]).
Proof.
  apply (@shared_record_under_both_keys ascii_platform
           (parser_with [[ [py "Domain"; py "IDN"]; [py ".aa"; py "xn--bb"] ]])
           [] [] [py "Domain"; py "IDN"] [py ".aa"; py "xn--bb"] [] []
           (py "aa") (py "xn--bb")).
  - reflexivity.
  - constructor.
  - constructor.
  - reflexivity.
  - discriminate.
  - discriminate.
  - constructor.
Defined.

(** C4, as stated, fails: the first row gives the keys [aa] and [xn--bb],
    and in the result the two keys hold different record objects, because
    the second row gives [aa] again. *)
Lemma twin_keys_diverge :
  @row_keys ascii_platform [py ".aa"; py "xn--bb"]
  = (Some (py "aa"), Some (py "xn--bb"))
  /\ exists pd,
       (@get_processed_data ascii_platform (parser_with twin_key_tables)).1
       = Ok pd
       /\ index pd.2 !! py "aa" = Some 1
       /\ index pd.2 !! py "xn--bb" = Some 0
       /\ data_get pd.2 (py "aa") <> data_get pd.2 (py "xn--bb").
Proof.
  split; [reflexivity|]. eexists. split; [reflexivity|].
  repeat split; vm_compute; congruence.
Qed.




(** The table of [two_suffix_events] is one of the [well_formed] tables:
    what fails there is the claim, not the markup. *)
Example two_suffix_table_well_formed :
  two_suffix_events = table_markup_events two_suffix_markup
  /\ wanted_table two_suffix_markup = true
  /\ well_formed two_suffix_markup = true.
Proof. repeat split; vm_compute; reflexivity. Qed.

(** Outside the tables of C1: a superscript in the caption of a
    [wikitable] table switches extraction off, no cell switches it on
    again, and the table is not extracted; no record is built. *)
Example caption_superscript_stops_extraction :
  @run_events ascii_platform new_parser footnoted_caption_events
  = Ok new_parser
  /\ @extract_and_index ascii_platform footnoted_caption_events
     = Ok empty_data.
Proof. split; vm_compute; reflexivity. Qed.

(** * Further properties of the plugin *)

(** ** The extractor on whole documents *)



(** Outside the documents of X1: the end of a superscript in a cell
    switches extraction on in a table of another class too, and the rest of
    that table is extracted. *)
Example superscript_starts_extraction :
  @run_events ascii_platform new_parser footnoted_navbox_events
  = Ok (mkParser false true [] [] [] (Raw [[[py "b"; py "c"]]])).
Proof. vm_compute. reflexivity. Qed.

(** ** What is ignored *)

Section SkipFacts.
Context `{Platform}.

Lemma table_attrs_no_class (attrs : list (pystr * option pystr)) (p : Parser) :
  existsb (fun a => streq a.1 (py "class")) attrs = false ->
  table_attrs attrs p = Ok p.
Proof.
  induction attrs as [|[name value] attrs IH]; [done|]. simpl.
  intros Hno. apply orb_false_iff in Hno as [Hname Hrest].
  rewrite Hname. by apply IH.
Qed.

Lemma is_tag_single (tag : pystr) (name : string) :
  is_tag tag [name] = streq tag (py name).
Proof. unfold is_tag. cbn [existsb]. apply orb_false_r. Qed.

Lemma dispatch_skipping (p : Parser) (e : event) :
  skipping p = true ->
  unskips e = false ->
  exists p',
    dispatch p e = Ok p'
    /\ skipping p' = true
    /\ tables p' = tables p
    /\ (rows p' = rows p \/ rows p' = [])
    /\ (current_row p' = current_row p \/ current_row p' = []).
Proof.
  intros Hsk He.
  assert (Hp : exists p',
             Ok p = Ok p' /\ skipping p' = true /\ tables p' = tables p
             /\ (rows p' = rows p \/ rows p' = [])
             /\ (current_row p' = current_row p \/ current_row p' = []))
    by eauto 10.
  destruct e as [tag attrs|tag|data]; cbn [dispatch unskips] in *.
  - unfold handle_starttag.
    destruct (is_tag tag ["td"; "th"]%string); [step_kept Hsk|].
    destruct (is_tag tag ["sup"]%string); [step_kept Hsk|].
    rewrite is_tag_single.
    destruct (streq tag (py "table")) eqn:Etable.
    + by rewrite table_attrs_no_class by exact He.
    + destruct (is_tag tag ["b"; "strong"]%string && in_cell p);
        [step_kept Hsk|].
      destruct (is_tag tag ["i"; "em"]%string && in_cell p);
        [step_kept Hsk | exact Hp].
  - unfold handle_endtag. cbv zeta. cbn [skipping set_in_cell].
    rewrite Hsk. cbn [negb].
    destruct (is_tag tag ["td"; "th"]%string); [step_kept Hsk|].
    destruct (is_tag tag ["tr"]%string); [step_kept Hsk|].
    destruct (is_tag tag ["table"]%string); [cbn [res_bind]; step_kept Hsk|].
    rewrite is_tag_single, He. cbn [andb].
    destruct (is_tag tag ["b"; "strong"]%string && in_cell p);
      [step_kept Hsk|].
    destruct (is_tag tag ["i"; "em"]%string && in_cell p);
      [step_kept Hsk | exact Hp].
  - unfold handle_data. rewrite Hsk, andb_false_r. exact Hp.
Qed.
End SkipFacts.

(** X2: while extraction is off, events other than a [table] start tag
    with a [class] attribute and the end of a superscript raise nothing and
    add nothing: the extracted tables are unchanged, extraction stays off,
    and the pending rows and row are kept or emptied. *)
Theorem skipped_content_adds_nothing `{Platform} (p : Parser)
    (es : list event) :
  skipping p = true ->
  Forall (fun e => unskips e = false) es ->
  exists p',
    run_events p es = Ok p'
    /\ skipping p' = true
    /\ tables p' = tables p
    /\ (rows p' = rows p \/ rows p' = [])
    /\ (current_row p' = current_row p \/ current_row p' = []).
Proof.
  intros Hsk Hes. revert p Hsk.
  induction Hes as [|e es He _ IH]; intros p Hsk; [simpl; eauto 10|].
  destruct (dispatch_skipping p e Hsk He) as (p1 & E1 & Hsk1 & Ht1 & Hr1 & Hc1).
  destruct (IH p1 Hsk1) as (p' & E & Hsk' & Ht' & Hr' & Hc').
  exists p'. simpl. rewrite E1. simpl. split; [exact E|].
  split; [exact Hsk'|]. split; [congruence|].
  split; [destruct Hr', Hr1; [left|right|right|right]; congruence|].
  destruct Hc', Hc1; [left|right|right|right]; congruence.
Qed.

Lemma skipped_content_adds_nothing_witness :
  exists p',
    @run_events ascii_platform new_parser
      (rows_events (py " ") [[py "a"; py "b"]; [py "c"]])
    = Ok p'
    /\ tables p' = Raw [].
Proof.
  destruct (@skipped_content_adds_nothing ascii_platform new_parser
              (rows_events (py " ") [[py "a"; py "b"]; [py "c"]]))
    as (p' & E & _ & Ht & _).
  - reflexivity.
  - repeat constructor.
  - exists p'. split; [exact E | exact Ht].
Defined.

(** ** Superscripts *)



(** ** More on the record indexer *)

Section IndexMoreFacts.
Context `{Platform}.

(** An empty table stops the indexing with [IndexError]; nothing else can. *)
Lemma index_tables_outcome (st : TldData * list logrec) (ts : list table) :
  ((index_tables st ts).1 = Raise IndexError /\ [] ∈ ts)
  \/ ((exists d, (index_tables st ts).1 = Ok d) /\ [] ∉ ts).
Proof.
  revert st. induction ts as [|t ts IH]; intros st.
  - right. split; [by eexists | apply not_elem_of_nil].
  - destruct t as [|h rs].
    + left. split; [done | by left].
    + cbn [index_tables].
      destruct (IH (fold_left (index_row h) rs st)) as [[E Hin] | [E Hnin]].
      * left. split; [done | by right].
      * right. split; [done|]. rewrite not_elem_of_cons. by split.
Qed.

(** A property of the data that every row keeps holds of the result. *)
Lemma index_tables_invariant (P : TldData -> Prop) (ts : list table)
    (st : TldData * list logrec) (d : TldData) :
  (forall h r d log, P d -> P (index_row h (d, log) r).1) ->
  P st.1 ->
  (index_tables st ts).1 = Ok d ->
  P d.
Proof.
  intros Hstep. revert st. induction ts as [|t ts IH]; intros st Hst.
  - simpl. by intros [= <-].
  - destruct t as [|h rs]; [done|]. cbn [index_tables]. apply IH.
    clear IH. revert st Hst. induction rs as [|r rs IHr]; intros st Hst; [done|].
    cbn [fold_left]. apply IHr. destruct st as [d0 log0]. by apply Hstep.
Qed.

Lemma get_processed_data_invariant (P : TldData -> Prop) (p p' : Parser)
    (ts : list table) (d : TldData) :
  (forall h r d log, P d -> P (index_row h (d, log) r).1) ->
  P empty_data ->
  tables p = Raw ts ->
  (get_processed_data p).1 = Ok (p', d) ->
  P d.
Proof.
  intros Hstep H0 Hp. rewrite (get_processed_data_raw p ts Hp).
  destruct (index_tables _ ts) as [[d'|e] log] eqn:E; [|done].
  intros [= _ <-]. eapply index_tables_invariant; [exact Hstep | | by rewrite E].
  exact H0.
Qed.

(** The fields of a record built from a row. *)
Lemma dict_set_keys (d : record) (k v : pystr) :
  dict_keys (dict_set d k v)
  = if bool_decide (k ∈ dict_keys d) then dict_keys d else dict_keys d ++ [k].
Proof.
  induction d as [|[k' v'] d IH]; [done|]. cbn [dict_set].
  unfold streq. destruct (decide (k' = k)) as [->|Hne].
  - rewrite bool_decide_eq_true_2 by done.
    rewrite bool_decide_eq_true_2; [done | by left].
  - rewrite bool_decide_eq_false_2 by done.
    change (dict_keys ((k', v') :: dict_set d k v))
      with (k' :: dict_keys (dict_set d k v)).
    rewrite IH. change (dict_keys ((k', v') :: d)) with (k' :: dict_keys d).
    destruct (decide (k ∈ dict_keys d)) as [Hin|Hnin].
    + rewrite !bool_decide_eq_true_2; [done | by right | done].
    + rewrite !bool_decide_eq_false_2; [done | | done].
      rewrite not_elem_of_cons. split; [congruence | done].
Qed.

Lemma dict_of_pairs_keys (l : list (pystr * pystr)) :
  NoDup (dict_keys (dict_of_pairs l))
  /\ forall k, k ∈ dict_keys (dict_of_pairs l) -> k ∈ l.*1.
Proof.
  unfold dict_of_pairs.
  assert (G : forall d,
             NoDup (dict_keys d) ->
             NoDup (dict_keys (fold_left (fun d kv => dict_set d kv.1 kv.2) l d))
             /\ forall k,
                  k ∈ dict_keys (fold_left (fun d kv => dict_set d kv.1 kv.2) l d) ->
                  k ∈ dict_keys d \/ k ∈ l.*1).
  { induction l as [|[k v] l IH]; intros d Hd; [by split; [|left]|].
    cbn [fold_left fst snd].
    destruct (IH (dict_set d k v)) as [Hnd Hin].
    - rewrite dict_set_keys. case_bool_decide as Hk; [done|].
      apply NoDup_app. split; [done|]. split; [|apply NoDup_singleton].
      intros x Hx Hx'. apply list_elem_of_singleton in Hx'. by subst.
    - split; [done|]. intros k' Hk'. destruct (Hin k' Hk') as [Hd'|Hl].
      + rewrite dict_set_keys in Hd'. case_bool_decide; [by left|].
        apply elem_of_app in Hd' as [?|Hd']; [by left|].
        apply list_elem_of_singleton in Hd' as ->. right. by left.
      + right. by right. }
  destruct (G [] (NoDup_nil_2)) as [Hnd Hin]. split; [done|].
  intros k Hk. destruct (Hin k Hk) as [Hk'|?]; [|done].
  by apply elem_of_nil in Hk'.
Qed.

Lemma zipped_keys (h r : row) :
  NoDup (dict_keys (zipped h r))
  /\ forall k, k ∈ dict_keys (zipped h r) -> k ∈ h.
Proof.
  destruct (dict_of_pairs_keys (zip h r)) as [Hnd Hin]. unfold zipped. split.
  - eapply sublist_NoDup; [exact Hnd|]. unfold dict_keys.
    apply fmap_sublist, sublist_filter.
  - intros k Hk. unfold dict_keys in Hk.
    apply list_elem_of_fmap in Hk as ([k' v] & -> & Hkv).
    apply list_elem_of_filter in Hkv as [_ Hkv].
    assert (Hk : k' ∈ (zip h r).*1).
    { apply Hin. unfold dict_keys. apply list_elem_of_fmap. by exists (k', v). }
    apply list_elem_of_fmap in Hk as ([k1 v1] & -> & Hz).
    by apply elem_of_zip_l in Hz.
Qed.

Lemma fold_jobs_warnings (J : list (row * row)) (d : TldData)
    (log : list logrec) :
  (fold_left index_job J (d, log)).2
  = log ++ (WarnSkipRow <$> filter (fun r => row_key_list r = []) J.*2).
Proof.
  revert d log. induction J as [|j J IH]; intros d log; cbn [fold_left].
  - simpl. by rewrite app_nil_r.
  - unfold index_job at 2. rewrite fmap_cons.
    destruct (decide (row_key_list j.2 = [])) as [E|E].
    + rewrite index_row_skip by done. rewrite IH.
      rewrite filter_cons_True by done. by rewrite fmap_cons, <- app_assoc.
    + destruct (index_row_store j.1 j.2 d log E) as (Hl & _).
      destruct (index_row j.1 (d, log) j.2) as [d1 l1]. cbn [snd] in Hl.
      subst l1. rewrite IH. by rewrite filter_cons_False by done.
Qed.

Lemma row_key_list_nonempty (r : row) (k : pystr) :
  k ∈ row_key_list r -> k <> [].
Proof.
  unfold row_key_list. destruct (row_keys r) as [key idn].
  intros Hk ->. destruct key as [[|??]|], idn as [[|??]|];
    cbn [truthy app] in Hk;
    change (option_list (Some ?x)) with [x] in Hk; cbn [app] in Hk;
    repeat (apply elem_of_cons in Hk as [Hk|Hk]; [discriminate|]);
    by apply elem_of_nil in Hk.
Qed.

Lemma index_row_wf (h r : row) (d : TldData) (log : list logrec) :
  (forall k a, index d !! k = Some a -> k <> [] /\ a < length (objs d)) ->
  forall k a,
    index (index_row h (d, log) r).1 !! k = Some a ->
    k <> [] /\ a < length (objs (index_row h (d, log) r).1).
Proof.
  intros Hd k a. destruct (decide (row_key_list r = [])) as [E|E].
  - rewrite index_row_skip by done. apply Hd.
  - destruct (index_row_store h r d log E) as (_ & -> & ->).
    rewrite length_app. cbn [length]. split_decide.
    + intros [= <-]. split; [by eapply row_key_list_nonempty | lia].
    + intros Ha. destruct (Hd k a Ha). split; [done | lia].
Qed.

Lemma index_row_records (h r : row) (d : TldData) (log : list logrec) :
  Forall (fun rec => no_empty_values rec /\ NoDup (dict_keys rec)) (objs d) ->
  Forall (fun rec => no_empty_values rec /\ NoDup (dict_keys rec))
         (objs (index_row h (d, log) r).1).
Proof.
  intros Hd. destruct (decide (row_key_list r = [])) as [E|E].
  - by rewrite index_row_skip.
  - destruct (index_row_store h r d log E) as (_ & -> & _).
    apply Forall_app. split; [done|]. apply Forall_singleton. split.
    + apply zipped_no_empty_values.
    + apply zipped_keys.
Qed.
End IndexMoreFacts.

(** X4: [get_processed_data] on unprocessed tables raises exactly when a
    table has no row at all, and then it is [IndexError]; otherwise it
    returns the record index and marks the parser as finished. *)
Theorem empty_table_raises_index_error `{Platform} (p : Parser)
    (ts : list table) :
  tables p = Raw ts ->
  ((get_processed_data p).1 = Raise IndexError <-> [] ∈ ts)
  /\ (forall e, (get_processed_data p).1 = Raise e -> e = IndexError)
  /\ ([] ∉ ts ->
      exists d, (get_processed_data p).1 = Ok (set_tables (Processed d) p, d)).
Proof.
  intros Hp. rewrite (get_processed_data_raw p ts Hp).
  destruct (index_tables_outcome
              (empty_data,
               [Debug "Processed TLD data requested.";
                Debug "Ensuring all buffered data has been parsed.";
                Debug "Processing tables."]) ts) as [[E Hin] | [[d E] Hnin]];
    destruct (index_tables _ ts) as [[d'|e] log]; cbn [fst] in E;
    try discriminate.
  - injection E as ->. split; [done|]. split; [by intros e [= <-] | done].
  - injection E as ->. split; [split; [done | intros; done]|].
    split; [done|]. intros _. by exists d.
Qed.

Lemma empty_table_raises_index_error_witness :
  (@get_processed_data ascii_platform
     (parser_with [[[py "Name"]; [py ".aa"]]; []])).1
  = Raise IndexError.
Proof.
  apply (@empty_table_raises_index_error ascii_platform
           (parser_with [[[py "Name"]; [py ".aa"]]; []])
           [[[py "Name"]; [py ".aa"]]; []] eq_refl).
  right. left.
Defined.

(** X5: once [get_processed_data] has returned, calling it again returns the
    same parser and the same record index without processing anything: only
    the two debug records of the shortcut are logged. *)
Theorem processed_data_memoized `{Platform} (p p' : Parser) (d : TldData) :
  (get_processed_data p).1 = Ok (p', d) ->
  get_processed_data p' = (Ok (p', d), memo_log).
Proof.
  unfold get_processed_data. destruct (tables p) as [ts|d0] eqn:Hp.
  - destruct (index_tables _ ts) as [[d1|e] log]; [|done].
    by intros [= <- <-].
  - intros [= <- <-]. by rewrite Hp.
Qed.

Lemma processed_data_memoized_witness :
  exists p' d,
    (@get_processed_data ascii_platform (parser_with skip_tables)).1
    = Ok (p', d)
    /\ @get_processed_data ascii_platform p' = (Ok (p', d), memo_log).
Proof.
  eexists _, _. split; [vm_compute; reflexivity|].
  eapply (@processed_data_memoized ascii_platform (parser_with skip_tables)).
  vm_compute. reflexivity.
Defined.

(** X6: in the record index that [get_processed_data] builds, every key is
    a non-empty string and holds a record object: a lookup of a key that is
    present never comes back empty-handed. *)
Theorem index_keys_resolve `{Platform} (p p' : Parser) (ts : list table)
    (d : TldData) (k : pystr) :
  tables p = Raw ts ->
  (get_processed_data p).1 = Ok (p', d) ->
  is_Some (index d !! k) ->
  k <> [] /\ is_Some (data_get d k).
Proof.
  intros Hp Hd [a Ha].
  assert (Hwf : forall k a, index d !! k = Some a ->
                            k <> [] /\ a < length (objs d)).
  { eapply (get_processed_data_invariant
              (fun d => forall k a, index d !! k = Some a ->
                                    k <> [] /\ a < length (objs d)));
      [| | exact Hp | exact Hd].
    - intros h r d0 log Hd0. by apply index_row_wf.
    - intros k' a'. simpl. by rewrite lookup_empty. }
  destruct (Hwf k a Ha) as [Hk Hlt]. split; [done|].
  unfold data_get. rewrite Ha. simpl. by apply lookup_lt_is_Some.
Qed.

Lemma index_keys_resolve_witness :
  exists p' d,
    (@get_processed_data ascii_platform (parser_with twin_key_tables)).1
    = Ok (p', d)
    /\ is_Some (data_get d (py "xn--bb")).
Proof.
  eexists _, _. split; [vm_compute; reflexivity|].
  eapply (@index_keys_resolve ascii_platform (parser_with twin_key_tables)).
  - reflexivity.
  - vm_compute. reflexivity.
  - vm_compute. by eexists.
Defined.

(** X7: every record object that [get_processed_data] builds has distinct
    field names, and none of its values is empty or the placeholder [—]. *)
Theorem records_are_clean `{Platform} (p p' : Parser) (ts : list table)
    (d : TldData) :
  tables p = Raw ts ->
  (get_processed_data p).1 = Ok (p', d) ->
  Forall (fun rec => no_empty_values rec /\ NoDup (dict_keys rec)) (objs d).
Proof.
  intros Hp Hd.
  eapply (get_processed_data_invariant
            (fun d => Forall (fun rec => no_empty_values rec
                                         /\ NoDup (dict_keys rec)) (objs d)));
    [| | exact Hp | exact Hd].
  - intros h r d0 log Hd0. by apply index_row_records.
  - constructor.
Qed.

Lemma records_are_clean_witness :
  exists p' d,
    (@get_processed_data ascii_platform
       (parser_with [[[py "Name"; py "Name"; py "Notes"];
                      [py ".aa"; py "again"; EM_DASH]]])).1
    = Ok (p', d)
    /\ objs d = [[(py "Name", py "again")]]
    /\ Forall (fun rec => no_empty_values rec /\ NoDup (dict_keys rec))
              (objs d).
Proof.
  eexists _, _. split; [vm_compute; reflexivity|].
  split; [vm_compute; reflexivity|].
  eapply (@records_are_clean ascii_platform
            (parser_with [[[py "Name"; py "Name"; py "Notes"];
                           [py ".aa"; py "again"; EM_DASH]]])).
  - reflexivity.
  - vm_compute. reflexivity.
Defined.

(** X8: when every table has a heading row, each data row is accounted for
    exactly once, in processing order: a row that gives a key adds one
    record object, a row that gives none adds one warning naming it. *)
Theorem rows_indexed_or_reported `{Platform} (p : Parser) (ts : list table) :
  tables p = Raw ts ->
  [] ∉ ts ->
  exists d,
    get_processed_data p
    = (Ok (set_tables (Processed d) p, d),
       [Debug "Processed TLD data requested.";
        Debug "Ensuring all buffered data has been parsed.";
        Debug "Processing tables."]
       ++ (WarnSkipRow <$> filter (fun r => row_key_list r = []) (jobs ts).*2)
       ++ [Debug "Finished processing TLD data; returning it."])
    /\ objs d
       = (fun j => zipped j.1 j.2) <$> filter (fun j => keyed j.2) (jobs ts)
    /\ length (objs d)
       + length (filter (fun r => row_key_list r = []) (jobs ts).*2)
       = length (jobs ts).
Proof.
  intros Hp Hne.
  assert (Hts : Forall (fun t : table => t <> []) ts).
  { apply Forall_forall. intros t Ht ->. done. }
  exists (fold_left index_job (jobs ts) (empty_data, [])).1.
  split; [|split].
  - rewrite (get_processed_data_raw p ts Hp).
    rewrite index_tables_jobs by done. rewrite fold_jobs_log.
    cbn [fst snd]. rewrite fold_jobs_warnings. reflexivity.
  - by rewrite fold_jobs_objs.
  - rewrite fold_jobs_objs. cbn [objs empty_data fst app].
    rewrite length_fmap. clear. induction (jobs ts) as [|j J IH]; [done|].
    rewrite fmap_cons. cbn [length].
    destruct (decide (row_key_list j.2 = [])) as [E|E].
    + rewrite (filter_cons_False (fun j => keyed j.2)) by (unfold keyed; tauto).
      rewrite (filter_cons_True (fun r => row_key_list r = [])) by done.
      cbn [length]. lia.
    + rewrite (filter_cons_True (fun j => keyed j.2)) by done.
      rewrite (filter_cons_False (fun r => row_key_list r = [])) by done.
      cbn [length]. lia.
Qed.

Lemma rows_indexed_or_reported_witness :
  exists d,
    (@get_processed_data ascii_platform (parser_with skip_tables)).2
    = [Debug "Processed TLD data requested.";
       Debug "Ensuring all buffered data has been parsed.";
       Debug "Processing tables.";
       WarnSkipRow [py "none"; py "here"];
       Debug "Finished processing TLD data; returning it."]
    /\ length (objs d) = 2.
Proof.
  destruct (@rows_indexed_or_reported ascii_platform (parser_with skip_tables)
              skip_tables eq_refl) as (d & E & Hobjs & _).
  - intros Hin. repeat (apply elem_of_cons in Hin as [Hin|Hin]; [discriminate|]).
    by apply elem_of_nil in Hin.
  - exists d. split.
    + rewrite E. vm_compute. reflexivity.
    + rewrite Hobjs. vm_compute. reflexivity.
Defined.

(** ** More on [_update_tld_data] *)

Section UpdateMoreFacts.
Context `{Platform}.
Variable env : Env.

(** The statements after the [try] either leave [bot.memory] alone or
    return normally having replaced the record index and its timestamp. *)
Lemma parse_and_store_memory (j : json) (now : datetime) (w : World) :
  memory (parse_and_store j now w).2 = memory w
  \/ ((parse_and_store j now w).1 = Ok tt
      /\ exists d, memory (parse_and_store j now w).2
                   = set_data d now (memory w)).
Proof.
  destruct j; try (by left). unfold parse_and_store, mbind, M_bind, bind, lift.
  destruct (feed new_parser s) as [p|e]; [|by left].
  destruct (get_processed_data p) as [[[p' d]|e] log]; [|by left].
  right. split; [done|]. by exists d.
Qed.

Lemma fetch_data_memory (now : datetime) (w : World) :
  memory (fetch_data env now w).2 = memory w
  \/ ((fetch_data env now w).1 = Ok tt
      /\ exists d, memory (fetch_data env now w).2
                   = set_data d now (memory w)).
Proof.
  unfold fetch_data, mbind, M_bind, bind, get_wiki. cbn [fst snd].
  destruct (wiki_get env (tick w)) as [|[j|]]; try (by left).
  destruct (response_text j) as [t|[]]; try (by left).
  exact (parse_and_store_memory t now (mkWorld _ _ _)).
Qed.

Lemma fetch_list_memory (now : datetime) (w : World) :
  (fetch_list env now w).1 = Ok tt
  /\ (memory (fetch_list env now w).2 = memory w
      \/ exists l, memory (fetch_list env now w).2
                   = set_list l now (memory w)).
Proof.
  rewrite fetch_list_unfold. destruct (iana_get env (tick w)); simpl; eauto.
Qed.

(** One update of a dataset: [bot.memory] is as before, or the call
    returned normally and replaced that dataset and its timestamp. *)
Lemma update_memory (ds : dataset) (w : World) :
  memory (_update_tld_data env (dataset_name ds) w).2 = memory w
  \/ ((_update_tld_data env (dataset_name ds) w).1 = Ok tt
      /\ (7 <= days (datetime_sub (clock env (tick w))
                                  (updated_at ds (memory w))))%Z
      /\ match ds with
         | DList =>
             exists l, memory (_update_tld_data env (dataset_name ds) w).2
                       = set_list l (clock env (tick w)) (memory w)
         | DData =>
             exists d, memory (_update_tld_data env (dataset_name ds) w).2
                       = set_data d (clock env (tick w)) (memory w)
         end).
Proof.
  rewrite update_unfold. cbv zeta.
  destruct (Z.ltb_spec
              (days (datetime_sub (clock env (tick w))
                                  (updated_at ds (memory w)))) 7);
    [by left|].
  destruct ds.
  - destruct (fetch_list_memory (clock env (tick w))
                (mkWorld (memory w) (trace w) (S (tick w)))) as [E [Hm|Hm]];
      [by left | right; by split].
  - destruct (fetch_data_memory (clock env (tick w))
                (mkWorld (memory w) (trace w) (S (tick w)))) as [Hm|[E Hm]];
      [by left | right; by split].
Qed.
End UpdateMoreFacts.

(** X9: asked for a cache kind other than [list] and [data], the update
    logs an error and does nothing else: the clock is not read, no request
    is made, [bot.memory] is untouched and the call returns normally. *)
Theorem unknown_cache_kind_ignored `{Platform} (env : Env) (which : pystr)
    (w : World) :
  which <> py "list" ->
  which <> py "data" ->
  _update_tld_data env which w
  = (Ok tt,
     mkWorld (memory w) (Log (ErrorUnknownCache which) :: trace w) (tick w)).
Proof.
  intros Hl Hd. unfold _update_tld_data, mbind, M_bind, bind, read_memory.
  unfold cache_updated, streq.
  by rewrite !bool_decide_eq_false_2 by done.
Qed.

Lemma unknown_cache_kind_ignored_witness :
  @_update_tld_data ascii_platform offline_env (py "lists") blank_world
  = (Ok tt,
     mkWorld (memory blank_world)
             (Log (ErrorUnknownCache (py "lists")) :: trace blank_world)
             (tick blank_world)).
Proof.
  apply (@unknown_cache_kind_ignored ascii_platform offline_env (py "lists")
           blank_world); discriminate.
Defined.

(** X10: an update of one dataset never touches the other: the list update
    leaves the record index and its timestamp as they were, and the data
    update leaves the suffix list and its timestamp as they were, whatever
    the network answers and also when the update raises. *)
Theorem update_leaves_other_dataset `{Platform} (env : Env) (w : World) :
  (tld_data_cache (memory (_update_tld_data env (py "list") w).2)
   = tld_data_cache (memory w)
   /\ tld_data_cache_updated (memory (_update_tld_data env (py "list") w).2)
      = tld_data_cache_updated (memory w))
  /\ (tld_list_cache (memory (_update_tld_data env (py "data") w).2)
      = tld_list_cache (memory w)
      /\ tld_list_cache_updated (memory (_update_tld_data env (py "data") w).2)
         = tld_list_cache_updated (memory w)).
Proof.
  split.
  - destruct (update_memory env DList w) as [E | (_ & _ & l & E)];
      change (dataset_name DList) with (py "list") in E; by rewrite E.
  - destruct (update_memory env DData w) as [E | (_ & _ & d & E)];
      change (dataset_name DData) with (py "data") in E; by rewrite E.
Qed.

(** X11: an update replaces a dataset only as a whole and only on success:
    when it raises, or when the cache is less than seven days old,
    [bot.memory] is what it was; when [bot.memory] changed, the call
    returned normally and the new timestamp is the time read by this
    call. *)
Theorem update_is_all_or_nothing `{Platform} (env : Env) (ds : dataset)
    (w : World) :
  let r := (_update_tld_data env (dataset_name ds) w).1 in
  let w' := (_update_tld_data env (dataset_name ds) w).2 in
  let age := datetime_sub (clock env (tick w)) (updated_at ds (memory w)) in
  (forall e, r = Raise e -> memory w' = memory w)
  /\ ((days age < 7)%Z -> memory w' = memory w)
  /\ (memory w' <> memory w ->
      r = Ok tt /\ updated_at ds (memory w') = clock env (tick w)).
Proof.
  intros r w' age. subst r w' age.
  destruct (update_memory env ds w) as [E | (Eok & Hage & Hm)].
  - split; [done|]. split; [done|]. intros Hne. by destruct Hne.
  - split; [intros e He; by rewrite Eok in He|].
    split; [intros Hlt; lia|]. intros _. split; [done|].
    destruct ds; destruct Hm as [x ->]; reflexivity.
Qed.

Lemma update_is_all_or_nothing_witness :
  memory (@_update_tld_data ascii_platform array_env (py "data") blank_world).2
  = memory blank_world.
Proof.
  destruct (@update_is_all_or_nothing ascii_platform array_env DData
              blank_world) as (Hraise & _).
  apply (Hraise TypeError). vm_compute. reflexivity.
Defined.

(** X12: the list update never raises: whatever the clock and the network
    answer, it returns normally. *)
Theorem list_update_never_raises `{Platform} (env : Env) (w : World) :
  (_update_tld_data env (py "list") w).1 = Ok tt.
Proof.
  change (py "list") with (dataset_name DList). rewrite update_unfold.
  cbv zeta. destruct (_ <? 7)%Z; [done|]. apply fetch_list_memory.
Qed.

Section RefreshFacts.
Context `{Platform}.
Variable env : Env.

Lemma update_skips (ds : dataset) (w : World) :
  (days (datetime_sub (clock env (tick w)) (updated_at ds (memory w))) < 7)%Z ->
  _update_tld_data env (dataset_name ds) w
  = (Ok tt,
     mkWorld (memory w)
       (Log (DebugCacheFresh (dataset_name ds)
               (days (datetime_sub (clock env (tick w))
                                   (updated_at ds (memory w)))))
        :: trace w)
       (S (tick w))).
Proof.
  intros Hlt. rewrite update_unfold. cbv zeta.
  by destruct (Z.ltb_spec
                 (days (datetime_sub (clock env (tick w))
                                     (updated_at ds (memory w)))) 7); [|lia].
Qed.

Lemma update_offline (ds : dataset) (w : World) :
  fetch_fails env ds (S (tick w)) ->
  exists t,
    _update_tld_data env (dataset_name ds) w
    = (Ok tt, mkWorld (memory w) t (_update_tld_data env (dataset_name ds) w).2.(tick)).
Proof.
  intros Hf. rewrite update_unfold. cbv zeta.
  destruct (_ <? 7)%Z; [by eexists|]. destruct ds.
  - rewrite fetch_list_unfold. cbn [tick] in *. simpl in Hf. rewrite Hf.
    by eexists.
  - rewrite fetch_data_failure by exact Hf. by eexists.
Qed.
End RefreshFacts.

(** X13: a successful refresh of the suffix list stores the lowercased
    entries with the time read by that call, and an update of the list
    that reads the clock less than seven days later makes no request and
    changes nothing. *)
Theorem refreshed_list_not_refetched `{Platform} (env : Env) (w : World)
    (text : pystr) :
  (7 <= days (datetime_sub (clock env (tick w))
                           (tld_list_cache_updated (memory w))))%Z ->
  iana_get env (S (tick w)) = Response text ->
  (days (datetime_sub (clock env (S (S (tick w)))) (clock env (tick w))) < 7)%Z ->
  let w1 := (_update_tld_data env (py "list") w).2 in
  memory w1 = set_list (parse_iana_list text) (clock env (tick w)) (memory w)
  /\ exists age,
       _update_tld_data env (py "list") w1
       = (Ok tt,
          mkWorld (memory w1)
                  (Log (DebugCacheFresh (py "list") age) :: trace w1)
                  (S (tick w1))).
Proof.
  intros Hstale Hresp Hsoon w1.
  assert (E : _update_tld_data env (py "list") w
              = (Ok tt,
                 mkWorld (set_list (parse_iana_list text) (clock env (tick w))
                                   (memory w))
                         (Log (DebugUpdated (py "list"))
                          :: HttpGet DList :: trace w)
                         (S (S (tick w))))).
  { change (py "list") with (dataset_name DList). rewrite update_unfold.
    cbv zeta.
    destruct (Z.ltb_spec
                (days (datetime_sub (clock env (tick w))
                                    (updated_at DList (memory w)))) 7) as [Hlt|_];
      [change (updated_at DList (memory w))
         with (tld_list_cache_updated (memory w)) in Hlt; lia|].
    rewrite fetch_list_unfold. cbn [tick memory trace]. by rewrite Hresp. }
  subst w1. rewrite E. cbn [snd]. split; [done|]. eexists.
  change (py "list") with (dataset_name DList). by rewrite update_skips.
Qed.

Lemma refreshed_list_not_refetched_witness :
  tld_list_cache
    (memory (@_update_tld_data ascii_platform
               (mkEnv (fun _ => jan 8)
                      (fun _ => Response (py "COM" ++ [10%N] ++ py "RU"))
                      (fun _ => RequestFailed))
               (py "list") blank_world).2)
  = [py "com"; py "ru"].
Proof.
  destruct (@refreshed_list_not_refetched ascii_platform
              (mkEnv (fun _ => jan 8)
                     (fun _ => Response (py "COM" ++ [10%N] ++ py "RU"))
                     (fun _ => RequestFailed))
              blank_world (py "COM" ++ [10%N] ++ py "RU")) as [E _].
  - vm_compute. discriminate.
  - reflexivity.
  - reflexivity.
  - rewrite E. reflexivity.
Defined.

(** X14: when neither request can succeed, the hourly [update_caches]
    returns normally and [bot.memory] is what it was. *)
Theorem update_caches_offline `{Platform} (env : Env) (w : World) :
  (forall n, fetch_fails env DList n) ->
  (forall n, fetch_fails env DData n) ->
  (update_caches env w).1 = Ok tt
  /\ memory (update_caches env w).2 = memory w.
Proof.
  intros Hl Hd. unfold update_caches, mbind, M_bind, bind.
  destruct (update_offline env DList w (Hl _)) as [t1 E1].
  change (dataset_name DList) with (py "list") in E1. rewrite E1.
  set (w1 := mkWorld _ _ _).
  destruct (update_offline env DData w1 (Hd _)) as [t2 E2].
  change (dataset_name DData) with (py "data") in E2. by rewrite E2.
Qed.

Lemma update_caches_offline_witness :
  (@update_caches ascii_platform offline_env blank_world).1 = Ok tt
  /\ memory (@update_caches ascii_platform offline_env blank_world).2
     = memory blank_world.
Proof.
  apply (@update_caches_offline ascii_platform offline_env blank_world).
  - intros n. reflexivity.
  - intros n. left. reflexivity.
Defined.

(** X15: when both caches are less than seven days old, the hourly
    [update_caches] reads the clock twice, logs the two skips and does
    nothing else: no request, no change of [bot.memory]. *)
Theorem update_caches_fresh `{Platform} (env : Env) (w : World) :
  let age_list :=
    days (datetime_sub (clock env (tick w))
                       (tld_list_cache_updated (memory w))) in
  let age_data :=
    days (datetime_sub (clock env (S (tick w)))
                       (tld_data_cache_updated (memory w))) in
  (age_list < 7)%Z ->
  (age_data < 7)%Z ->
  update_caches env w
  = (Ok tt,
     mkWorld (memory w)
             (Log (DebugCacheFresh (py "data") age_data)
              :: Log (DebugCacheFresh (py "list") age_list) :: trace w)
             (S (S (tick w)))).
Proof.
  intros age_list age_data Hl Hd. unfold update_caches, mbind, M_bind, bind.
  change (py "list") with (dataset_name DList).
  rewrite update_skips by exact Hl.
  change (py "data") with (dataset_name DData).
  by rewrite update_skips by exact Hd.
Qed.

Lemma update_caches_fresh_witness :
  memory (@update_caches ascii_platform early_env blank_world).2
  = memory blank_world.
Proof.
  rewrite (@update_caches_fresh ascii_platform early_env blank_world);
    [reflexivity | vm_compute; reflexivity | vm_compute; reflexivity].
Defined.

(** ** More on [gettld] *)

Section QuietFacts.
Context `{Platform}.
Variable env : Env.

Lemma quiet_bind {A B} (m : M A) (k : A -> M B) :
  (forall w, exists new, extends_by new w (m w).2 /\ quiet new) ->
  (forall a w, exists new, extends_by new w (k a w).2 /\ quiet new) ->
  forall w, exists new, extends_by new w ((m ≫= k) w).2 /\ quiet new.
Proof.
  intros Hm Hk w. unfold mbind, M_bind, bind.
  destruct (Hm w) as (n1 & E1 & Q1). destruct (m w) as [[a|e] w1]; simpl in *.
  - destruct (Hk a w1) as (n2 & E2 & Q2). exists (n2 ++ n1). split.
    + unfold extends_by in *. by rewrite E2, E1, app_assoc.
    + by apply Forall_app.
  - by exists n1.
Qed.

Lemma quiet_same {A} (m : M A) :
  (forall w, trace (m w).2 = trace w) ->
  forall w, exists new, extends_by new w (m w).2 /\ quiet new.
Proof.
  intros E w. exists []. split; [unfold extends_by; by rewrite E | constructor].
Qed.

Lemma quiet_emit (e : effect) (w : World) :
  is_message e = false ->
  exists new, extends_by new w (emit e w).2 /\ quiet new.
Proof. intros He. exists [e]. split; [done | by constructor]. Qed.

Lemma quiet_emit_logs (l : list logrec) (w : World) :
  exists new, extends_by new w (emit_logs l w).2 /\ quiet new.
Proof.
  exists (reverse (map Log l)). split; [done|].
  apply Forall_reverse, Forall_forall. intros e He.
  apply list_elem_of_fmap in He as (r & -> & _). done.
Qed.

Lemma quiet_parse_and_store (j : json) (now : datetime) (w : World) :
  exists new, extends_by new w (parse_and_store j now w).2 /\ quiet new.
Proof.
  destruct j; try (exists []; split; [done | constructor]).
  unfold parse_and_store. revert w.
  apply quiet_bind; [by apply quiet_same|]. intros p.
  destruct (get_processed_data p) as [r log].
  apply quiet_bind; [apply quiet_emit_logs|]. intros _.
  apply quiet_bind; [by apply quiet_same|]. intros pd.
  apply quiet_bind; [by apply quiet_same|]. intros m.
  apply quiet_bind; [by apply quiet_same|]. intros _ w. by apply quiet_emit.
Qed.

Lemma quiet_fetch_data (now : datetime) (w : World) :
  exists new, extends_by new w (fetch_data env now w).2 /\ quiet new.
Proof.
  unfold fetch_data. revert w. apply quiet_bind.
  { intros w. exists [HttpGet DData]. split; [done | by constructor]. }
  intros r w. destruct r as [|[j|]]; try (by apply quiet_emit).
  destruct (response_text j) as [t|[]];
    first [by apply quiet_emit | apply quiet_parse_and_store
          | exists []; split; [done | constructor]].
Qed.

Lemma quiet_fetch_list (now : datetime) (w : World) :
  exists new, extends_by new w (fetch_list env now w).2 /\ quiet new.
Proof.
  rewrite fetch_list_unfold.
  destruct (iana_get env (tick w)); eexists [_; _];
    (split; [reflexivity | by repeat constructor]).
Qed.

(** An update says nothing on the channel. *)
Lemma quiet_update (which : pystr) (w : World) :
  exists new, extends_by new w (_update_tld_data env which w).2 /\ quiet new.
Proof.
  unfold _update_tld_data. revert w.
  apply quiet_bind; [by apply quiet_same|]. intros m.
  destruct (cache_updated which m) as [then_|];
    [|intros w; by apply quiet_emit].
  apply quiet_bind; [by apply quiet_same|]. intros now w.
  destruct (_ <? 7)%Z; [by apply quiet_emit|].
  destruct (streq which (py "list"));
    [apply quiet_fetch_list | apply quiet_fetch_data].
Qed.

Lemma quiet_ensure_list (w : World) :
  exists new, extends_by new w (ensure_list env w).2 /\ quiet new.
Proof.
  unfold ensure_list. revert w.
  apply quiet_bind; [by apply quiet_same|]. intros m w.
  destruct (tld_list_cache m); [apply quiet_update | by apply quiet_same].
Qed.

Lemma quiet_ensure_data (w : World) :
  exists new, extends_by new w (ensure_data env w).2 /\ quiet new.
Proof.
  unfold ensure_data. revert w.
  apply quiet_bind; [by apply quiet_same|]. intros m w.
  destruct (bool_decide _); [apply quiet_update | by apply quiet_same].
Qed.

(** After a quiet step, a step that answers once answers once. *)
Lemma answers_once_bind {A B} (m : M A) (k : A -> M B) :
  (forall w, exists new, extends_by new w (m w).2 /\ quiet new) ->
  (forall a w, exists new,
      extends_by new w (k a w).2 /\ answers_once (k a w).1 new) ->
  forall w, exists new,
    extends_by new w ((m ≫= k) w).2 /\ answers_once ((m ≫= k) w).1 new.
Proof.
  intros Hm Hk w. unfold mbind, M_bind, bind.
  destruct (Hm w) as (n1 & E1 & Q1). destruct (m w) as [[a|e] w1]; simpl in *.
  - destruct (Hk a w1) as (n2 & E2 & A2). exists (n2 ++ n1). split.
    + unfold extends_by in *. by rewrite E2, E1, app_assoc.
    + destruct (k a w1) as [[b|e] w2]; simpl in *.
      * destruct A2 as (msg & rest & -> & Hm' & Hq).
        exists msg, (rest ++ n1). split; [done|]. split; [done|].
        by apply Forall_app.
      * by apply Forall_app.
  - by exists n1.
Qed.

Lemma answers_once_emit (e : effect) (w : World) :
  is_message e = true ->
  exists new, extends_by new w (emit e w).2 /\ answers_once (emit e w).1 new.
Proof.
  intros He. exists [e]. split; [done|]. exists e, [].
  split; [done|]. split; [done | constructor].
Qed.

Lemma answers_once_show_record (tld : pystr) (w : World) :
  exists new,
    extends_by new w (show_record tld w).2
    /\ answers_once (show_record tld w).1 new.
Proof.
  unfold show_record, mbind, M_bind, bind, read_memory.
  destruct (data_get _ tld) as [[|? ?]|]; by apply answers_once_emit.
Qed.

Lemma answers_once_validate (tld : pystr) (w : World) :
  exists new,
    extends_by new w (validate_and_show env tld w).2
    /\ answers_once (validate_and_show env tld w).1 new.
Proof.
  unfold validate_and_show. revert w.
  apply answers_once_bind; [by apply quiet_same|]. intros m w.
  destruct (idna_ToASCII tld) as [ascii|].
  - destruct (negb _); [by apply answers_once_emit|]. revert w.
    apply answers_once_bind; [apply quiet_ensure_data|]. intros _.
    apply answers_once_show_record.
  - exists []. split; [done | constructor].
Qed.
End QuietFacts.

(** X16: a call of [gettld] that returns has sent exactly one message, a
    reply or a line said to the channel, and it is the last thing it did; a
    call that raises has sent none.  Updates run on the way send nothing. *)
Theorem gettld_answers_once `{Platform} (env : Env) (group2 : option pystr)
    (w : World) :
  exists new,
    extends_by new w (gettld env group2 w).2
    /\ answers_once (gettld env group2 w).1 new.
Proof.
  destruct group2 as [[|c raw]|]; try (by apply answers_once_emit).
  unfold gettld. revert w.
  apply answers_once_bind; [apply quiet_ensure_list|]. intros _.
  apply answers_once_validate.
Qed.

Section WarmFacts.
Context `{Platform}.
Variable env : Env.

Lemma ensure_list_warm (w : World) :
  tld_list_cache (memory w) <> [] -> ensure_list env w = (Ok tt, w).
Proof.
  intros Hl. unfold ensure_list, mbind, M_bind, bind, read_memory.
  by destruct (tld_list_cache (memory w)).
Qed.

Lemma ensure_data_warm (w : World) :
  index (tld_data_cache (memory w)) <> ∅ -> ensure_data env w = (Ok tt, w).
Proof.
  intros Hd. unfold ensure_data, mbind, M_bind, bind, read_memory.
  by rewrite bool_decide_eq_false_2.
Qed.
End WarmFacts.

(** X17: with both caches filled, [gettld] reads no clock, makes no
    request and leaves [bot.memory] as it is: all it does is send at most
    one message. *)
Theorem gettld_warm_caches `{Platform} (env : Env) (group2 : option pystr)
    (w : World) :
  tld_list_cache (memory w) <> [] ->
  index (tld_data_cache (memory w)) <> ∅ ->
  memory (gettld env group2 w).2 = memory w
  /\ tick (gettld env group2 w).2 = tick w
  /\ (trace (gettld env group2 w).2 = trace w
      \/ exists m, is_message m = true
                   /\ trace (gettld env group2 w).2 = m :: trace w).
Proof.
  intros Hlist Hdata.
  assert (Hemit : forall m,
             is_message m = true ->
             memory (emit m w).2 = memory w
             /\ tick (emit m w).2 = tick w
             /\ (trace (emit m w).2 = trace w
                 \/ exists m', is_message m' = true
                               /\ trace (emit m w).2 = m' :: trace w)).
  { intros m Hm. split; [done|]. split; [done|]. right. by exists m. }
  destruct group2 as [[|c raw]|]; [by apply Hemit | | by apply Hemit].
  rewrite gettld_unfold by done. unfold mbind, M_bind, bind.
  rewrite ensure_list_warm by done.
  unfold validate_and_show, mbind, M_bind, bind, read_memory.
  destruct (idna_ToASCII (normalize (c :: raw))) as [ascii|];
    [|split; [done|]; split; [done|]; by left].
  destruct (negb _); [by apply Hemit|].
  rewrite ensure_data_warm by done. unfold show_record, mbind, M_bind, bind,
    read_memory.
  destruct (data_get _ _) as [[|? ?]|]; by apply Hemit.
Qed.

Lemma gettld_warm_caches_witness :
  memory (@gettld ascii_platform offline_env (Some (py ".RU"))
            ru_details_world).2
  = memory ru_details_world.
Proof.
  apply (@gettld_warm_caches ascii_platform offline_env (Some (py ".RU"))
           ru_details_world); discriminate.
Defined.

Section ValidationFacts.
Context `{Platform}.
Variable env : Env.

(** Filling the suffix list returns normally, leaves the record index alone
    and makes no request for the data. *)
Lemma ensure_list_effects (w : World) :
  (ensure_list env w).1 = Ok tt
  /\ tld_data_cache (memory (ensure_list env w).2) = tld_data_cache (memory w)
  /\ exists new,
       extends_by new w (ensure_list env w).2 /\ HttpGet DData ∉ new.
Proof.
  unfold ensure_list, mbind, M_bind, bind, read_memory.
  destruct (tld_list_cache (memory w)) as [|x l].
  - change (py "list") with (dataset_name DList). rewrite update_unfold.
    cbv zeta. destruct (_ <? 7)%Z.
    + split; [done|]. split; [done|]. eexists [_]. split; [reflexivity|].
      intros Hin. apply list_elem_of_singleton in Hin. discriminate.
    + rewrite fetch_list_unfold. cbn [tick memory trace].
      destruct (iana_get env (S (tick w))); (split; [done|]); (split; [done|]);
        eexists [_; _]; (split; [reflexivity|]); intros Hin;
        repeat (apply elem_of_cons in Hin as [Hin|Hin]; [discriminate|]);
        by apply elem_of_nil in Hin.
  - split; [done|]. split; [done|]. exists []. split; [done|].
    apply not_elem_of_nil.
Qed.
End ValidationFacts.

(** X18: a token that is not in the suffix list, and whose IDNA form is not
    either, is answered with the normalized token echoed back: the record
    index is neither consulted nor fetched. *)
Theorem invalid_token_rejected `{Platform} (env : Env) (raw ascii : pystr)
    (w : World) :
  raw <> [] ->
  idna_ToASCII (normalize raw) = Some ascii ->
  normalize raw ∉ tld_list_cache (memory (ensure_list env w).2) ->
  ascii ∉ tld_list_cache (memory (ensure_list env w).2) ->
  let w1 := (ensure_list env w).2 in
  gettld env (Some raw) w
  = (Ok tt,
     mkWorld (memory w1) (Reply (msg_not_valid (normalize raw)) :: trace w1)
             (tick w1))
  /\ tld_data_cache (memory w1) = tld_data_cache (memory w)
  /\ exists new, extends_by new w w1 /\ HttpGet DData ∉ new.
Proof.
  intros Hraw Hascii Hn Ha w1.
  destruct (ensure_list_effects env w) as (Hok & Hdata & Hnew).
  split; [|by split].
  rewrite gettld_unfold by done. unfold mbind, M_bind, bind.
  subst w1. destruct (ensure_list env w) as [r w1]. cbn [fst snd] in *.
  subst r. unfold validate_and_show, mbind, M_bind, bind, read_memory.
  rewrite Hascii. by rewrite !bool_decide_eq_false_2 by done.
Qed.

Lemma invalid_token_rejected_witness :
  @gettld ascii_platform offline_env (Some (py "zz")) ru_details_world
  = (Ok tt,
     mkWorld (memory ru_details_world) [Reply (msg_not_valid (py "zz"))] 0).
Proof.
  apply (@invalid_token_rejected ascii_platform offline_env (py "zz")
           (py "zz") ru_details_world).
  - discriminate.
  - reflexivity.
  - vm_compute. intros Hin.
    repeat (apply elem_of_cons in Hin as [Hin|Hin]; [discriminate|]).
    by apply elem_of_nil in Hin.
  - vm_compute. intros Hin.
    repeat (apply elem_of_cons in Hin as [Hin|Hin]; [discriminate|]).
    by apply elem_of_nil in Hin.
Defined.

(** X19: when the normalized token has no IDNA form ([ToASCII] raises, as
    for an empty label), [gettld] raises [UnicodeError] before it looks at
    the suffix list and sends nothing; the world is as the filling of the
    list left it. *)
Theorem unencodable_token_raises `{Platform} (env : Env) (raw : pystr)
    (w : World) :
  raw <> [] ->
  idna_ToASCII (normalize raw) = None ->
  gettld env (Some raw) w = (Raise UnicodeError, (ensure_list env w).2).
Proof.
  intros Hraw Hnone.
  destruct (ensure_list_effects env w) as (Hok & _).
  rewrite gettld_unfold by done. unfold mbind, M_bind, bind.
  destruct (ensure_list env w) as [r w1]. cbn [fst snd] in *. subst r.
  unfold validate_and_show, mbind, M_bind, bind, read_memory.
  by rewrite Hnone.
Qed.

Lemma unencodable_token_raises_witness :
  @gettld ascii_platform offline_env (Some (py "...")) ru_details_world
  = (Raise UnicodeError, ru_details_world).
Proof.
  apply (@unencodable_token_raises ascii_platform offline_env (py "...")
           ru_details_world); [discriminate | reflexivity].
Defined.

(** ** Rendering *)





(** ** [shutdown] and [setup] *)

Lemma digit_value_char (d : Z) :
  (0 <= d <= 9)%Z -> digit_value (digit_char d) = Some d.
Proof.
  intros Hd.
  assert (d = 0 \/ d = 1 \/ d = 2 \/ d = 3 \/ d = 4 \/ d = 5 \/ d = 6
          \/ d = 7 \/ d = 8 \/ d = 9)%Z as Hcases by lia.
  repeat (destruct Hcases as [-> | Hcases]; [reflexivity|]).
  by subst.
Qed.

Lemma read_pad2 (n : Z) (rest : pystr) :
  (0 <= n <= 99)%Z -> read_digits 2 0 (pad2 n ++ rest) = Some (n, rest).
Proof.
  intros Hn. unfold pad2. cbn [read_digits app].
  rewrite !digit_value_char by (Z.div_mod_to_equations; lia).
  do 2 f_equal. Z.div_mod_to_equations. lia.
Qed.

Lemma read_pad4 (n : Z) (rest : pystr) :
  (0 <= n <= 9999)%Z -> read_digits 4 0 (pad4 n ++ rest) = Some (n, rest).
Proof.
  intros Hn. unfold pad4. cbn [read_digits app].
  rewrite !digit_value_char by (Z.div_mod_to_equations; lia).
  do 2 f_equal. Z.div_mod_to_equations. lia.
Qed.

(** What [strftime] writes, [strptime] reads back, to the second. *)
Lemma strptime_strftime (d : datetime) :
  valid_datetime d -> strptime (strftime d) = Ok (to_second d).
Proof.
  intros (Hy & Hm & Hd & Hh & Hmi & Hs).
  assert (Hdim : (days_in_month (year d) (month d) <= 31)%Z).
  { unfold days_in_month. repeat destruct (_ =? _)%Z; simpl;
      try destruct (is_leap _); lia. }
  unfold strptime, parse_date_format, strftime.
  rewrite read_pad4 by lia. cbn [mbind option_bind expect app N.eqb Pos.eqb].
  rewrite read_pad2 by lia. cbn [mbind option_bind expect app N.eqb Pos.eqb].
  rewrite read_pad2 by lia. cbn [mbind option_bind expect app N.eqb Pos.eqb].
  rewrite read_pad2 by lia. cbn [mbind option_bind expect app N.eqb Pos.eqb].
  rewrite read_pad2 by lia. cbn [mbind option_bind expect app N.eqb Pos.eqb].
  rewrite <- (app_nil_r (pad2 (second d))), read_pad2 by lia.
  cbn [mbind option_bind].
  assert ((1 <=? year d)%Z && (1 <=? month d)%Z && (month d <=? 12)%Z
          && (1 <=? day d)%Z && (day d <=? days_in_month (year d) (month d))%Z
          && (hour d <=? 23)%Z && (minute d <=? 59)%Z && (second d <=? 59)%Z
          = true) as ->.
  { rewrite !andb_true_iff, !Z.leb_le. lia. }
  reflexivity.
Qed.

(** X21: what [shutdown] persists, [setup] restores: with both caches
    filled and timestamps of four-digit years, the suffix list comes back
    as it was, every key of the record index gives the record it gave, and
    the two timestamps come back to the second, whatever the database held
    before. *)
Theorem shutdown_setup_round_trip (m : Memory) (db : Db) :
  tld_list_cache m <> [] ->
  index (tld_data_cache m) <> ∅ ->
  valid_datetime (tld_list_cache_updated m) ->
  valid_datetime (tld_data_cache_updated m) ->
  exists m',
    setup (shutdown m db) = Ok m'
    /\ tld_list_cache m' = tld_list_cache m
    /\ tld_list_cache_updated m' = to_second (tld_list_cache_updated m)
    /\ (forall k, data_get (tld_data_cache m') k
                  = data_get (tld_data_cache m) k)
    /\ tld_data_cache_updated m' = to_second (tld_data_cache_updated m).
Proof.
  intros Hl Hd Hlu Hdu. unfold shutdown.
  destruct (tld_list_cache m) as [|x l] eqn:El; [done|].
  rewrite bool_decide_eq_false_2 by done.
  unfold setup, get_plugin_value. cbn [db_tld_list_cache
    db_tld_list_cache_updated db_tld_data_cache db_tld_data_cache_updated
    default].
  unfold id. rewrite !strptime_strftime by done. cbn [res_bind].
  eexists. split; [reflexivity|]. by repeat split.
Qed.

Lemma shutdown_setup_round_trip_witness :
  exists m',
    setup (shutdown (memory ru_details_world) empty_db) = Ok m'
    /\ tld_list_cache m' = [py "com"; py "ru"]
    /\ tld_list_cache_updated m' = jan 1.
Proof.
  destruct (shutdown_setup_round_trip (memory ru_details_world) empty_db)
    as (m' & E & El & Elu & _).
  - discriminate.
  - discriminate.
  - vm_compute. repeat split; discriminate.
  - vm_compute. repeat split; discriminate.
  - exists m'. split; [exact E|]. split; [exact El | exact Elu].
Defined.

(** X22: [shutdown] never writes an empty cache: an empty suffix list
    leaves the persisted list and its timestamp as they are, an empty
    record index leaves the persisted index and its timestamp as they are,
    and with both empty the database is not changed at all. *)
Theorem shutdown_keeps_persisted_when_empty (m : Memory) (db : Db) :
  (tld_list_cache m = [] ->
   db_tld_list_cache (shutdown m db) = db_tld_list_cache db
   /\ db_tld_list_cache_updated (shutdown m db) = db_tld_list_cache_updated db)
  /\ (index (tld_data_cache m) = ∅ ->
      db_tld_data_cache (shutdown m db) = db_tld_data_cache db
      /\ db_tld_data_cache_updated (shutdown m db)
         = db_tld_data_cache_updated db)
  /\ (tld_list_cache m = [] -> index (tld_data_cache m) = ∅ ->
      shutdown m db = db).
Proof.
  unfold shutdown. split; [|split].
  - intros ->. by destruct (bool_decide _).
  - intros Hd. rewrite bool_decide_eq_true_2 by done.
    by destruct (tld_list_cache m).
  - intros -> Hd. by rewrite bool_decide_eq_true_2.
Qed.

Lemma shutdown_keeps_persisted_when_empty_witness :
  shutdown (memory blank_world)
           (shutdown (memory ru_details_world) empty_db)
  = shutdown (memory ru_details_world) empty_db.
Proof.
  apply (shutdown_keeps_persisted_when_empty (memory blank_world));
    reflexivity.
Defined.

(** ** [sopel-plugins disable] and [sopel-plugins list] *)

(** The five ways through [handle_disable]. *)
Lemma handle_disable_cases (options : DisableOptions)
    (usable : list (pystr * bool)) (settings : Settings) :
  let name := opt_name options in
  let removing :=
    opt_remove options && bool_decide (name ∈ core_enable settings) in
  let s1 :=
    if removing
    then mkSettings (filter (fun n => n <> name) (core_enable settings))
                    (core_exclude settings)
    else settings in
  let saved := if removing then [Save s1] else [] in
  (name = py "coretasks"
   /\ handle_disable options usable settings
      = mkCliRun (Some 1%Z)
                 [Stderr (py "Plugin coretasks cannot be disabled")] settings)
  \/ (name <> py "coretasks" /\ (name ∉ usable.*1)
      /\ handle_disable options usable settings
         = mkCliRun (Some 1%Z) [Stderr (py "No plugin named " ++ name)]
                    settings)
  \/ (name <> py "coretasks" /\ (name ∈ usable.*1)
      /\ (name ∈ core_exclude settings)
      /\ exists msg,
           handle_disable options usable settings
           = mkCliRun (Some 0%Z) (saved ++ [Stderr msg]) s1)
  \/ (name <> py "coretasks" /\ (name ∈ usable.*1)
      /\ (name ∉ core_exclude settings)
      /\ core_enable s1 <> [] /\ (name ∉ core_enable s1)
      /\ opt_force options = false
      /\ exists msg,
           handle_disable options usable settings
           = mkCliRun (Some 0%Z) (saved ++ [Stderr msg]) s1)
  \/ (name <> py "coretasks" /\ (name ∈ usable.*1)
      /\ (name ∉ core_exclude settings)
      /\ (core_enable s1 = [] \/ (name ∈ core_enable s1)
          \/ opt_force options = true)
      /\ exists msg,
           handle_disable options usable settings
           = mkCliRun None
               (saved ++ [Save (mkSettings (core_enable s1)
                                           (core_exclude settings ++ [name]));
                          Stdout msg])
               (mkSettings (core_enable s1)
                           (core_exclude settings ++ [name]))).
Proof.
  intros name removing s1 saved. unfold handle_disable. fold name.
  unfold streq.
  destruct (decide (name = py "coretasks")) as [Hc|Hc].
  { left. by rewrite bool_decide_eq_true_2. }
  rewrite bool_decide_eq_false_2 by done. right.
  destruct (decide (name ∈ usable.*1)) as [Hu|Hu]; cycle 1.
  { left. by rewrite bool_decide_eq_false_2. }
  rewrite bool_decide_eq_true_2 by done. cbn [negb]. right.
  fold removing.
  assert (Hpair : (if removing
                   then (mkSettings (filter (fun n => n <> name)
                                            (core_enable settings))
                                    (core_exclude settings),
                         [Save (mkSettings (filter (fun n => n <> name)
                                                   (core_enable settings))
                                           (core_exclude settings))])
                   else (settings, []))
                  = (s1, saved)).
  { subst s1 saved. by destruct removing. }
  rewrite Hpair.
  destruct (decide (name ∈ core_exclude settings)) as [He|He].
  { left. rewrite bool_decide_eq_true_2 by done. eauto 10. }
  rewrite bool_decide_eq_false_2 by done. right.
  destruct (core_enable s1) as [|x l] eqn:Een.
  { right. cbn [negb andb]. split; [done|]. split; [done|]. split; [done|].
    split; [by left|]. by eexists. }
  destruct (decide (name ∈ x :: l)) as [Hin|Hin].
  { right. rewrite bool_decide_eq_true_2 by done. cbn [negb andb].
    split; [done|]. split; [done|]. split; [done|].
    split; [right; by left|]. by eexists. }
  rewrite bool_decide_eq_false_2 by done. cbn [negb andb].
  destruct (opt_force options) eqn:Ef; cbn [negb].
  - right. split; [done|]. split; [done|]. split; [done|].
    split; [right; by right|]. by eexists.
  - left. split; [done|]. split; [done|]. split; [done|].
    split; [done|]. split; [done|]. split; [done|]. by eexists.
Qed.

(** X23: [handle_disable] returns 1 exactly for [coretasks] and for a name
    that is not a usable plugin, and then nothing is saved and the settings
    are untouched, whatever the options. *)
Theorem disable_refused (options : DisableOptions)
    (usable : list (pystr * bool)) (settings : Settings) :
  (returned (handle_disable options usable settings) = Some 1%Z
   <-> opt_name options = py "coretasks" \/ (opt_name options ∉ usable.*1))
  /\ (returned (handle_disable options usable settings) = Some 1%Z ->
      settings_after (handle_disable options usable settings) = settings
      /\ forall s, Save s ∉ effects (handle_disable options usable settings)).
Proof.
  destruct (handle_disable_cases options usable settings)
    as [(Hc & ->) | [(Hc & Hu & ->) | [(Hc & Hu & He & msg & ->)
       | [(Hc & Hu & He & Hen & Hnin & Hf & msg & ->)
       | (Hc & Hu & He & Hor & msg & ->)]]]]; cbn [returned settings_after effects].
  - split; [split; [by left | done]|]. intros _. split; [done|].
    intros s Hin. apply list_elem_of_singleton in Hin. discriminate.
  - split; [split; [by right | done]|]. intros _. split; [done|].
    intros s Hin. apply list_elem_of_singleton in Hin. discriminate.
  - split; [split; [discriminate | by intros [?|?]]|]. discriminate.
  - split; [split; [discriminate | by intros [?|?]]|]. discriminate.
  - split; [split; [discriminate | by intros [?|?]]|]. discriminate.
Qed.

Lemma disable_refused_witness :
  returned (handle_disable (mkDisableOptions (py "coretasks") true true)
                           [(py "coretasks", true)]
                           (mkSettings [py "coretasks"] []))
  = Some 1%Z.
Proof.
  apply (disable_refused (mkDisableOptions (py "coretasks") true true)
           [(py "coretasks", true)] (mkSettings [py "coretasks"] [])).
  left. reflexivity.
Defined.

(** X24: [handle_disable] changes the exclusion list in one way only: it
    appends the name, once, when the name was not in it; so a list without
    duplicates stays without duplicates.  The enable list is as before, or,
    with [--remove], as before without the name. *)
Theorem disable_appends_once (options : DisableOptions)
    (usable : list (pystr * bool)) (settings : Settings) :
  let after := settings_after (handle_disable options usable settings) in
  (core_exclude after = core_exclude settings
   \/ ((opt_name options ∉ core_exclude settings)
       /\ core_exclude after = core_exclude settings ++ [opt_name options]))
  /\ (NoDup (core_exclude settings) -> NoDup (core_exclude after))
  /\ (core_enable after = core_enable settings
      \/ (opt_remove options = true
          /\ core_enable after
             = filter (fun n => n <> opt_name options) (core_enable settings))).
Proof.
  intros after. subst after.
  assert (Hen : forall b : bool,
             (b = true -> opt_remove options = true) ->
             core_enable
               (if b
                then mkSettings (filter (fun n => n <> opt_name options)
                                        (core_enable settings))
                                (core_exclude settings)
                else settings)
             = core_enable settings
             \/ (opt_remove options = true
                 /\ core_enable
                      (if b
                       then mkSettings (filter (fun n => n <> opt_name options)
                                               (core_enable settings))
                                       (core_exclude settings)
                       else settings)
                    = filter (fun n => n <> opt_name options)
                             (core_enable settings))).
  { intros [|] Hb; [right; by split; [apply Hb|] | by left]. }
  assert (Hrem : opt_remove options
                 && bool_decide (opt_name options ∈ core_enable settings) = true
                 -> opt_remove options = true).
  { by intros [? _]%andb_true_iff. }
  assert (Hex : forall b : bool,
             core_exclude
               (if b
                then mkSettings (filter (fun n => n <> opt_name options)
                                        (core_enable settings))
                                (core_exclude settings)
                else settings)
             = core_exclude settings).
  { by intros [|]. }
  destruct (handle_disable_cases options usable settings)
    as [(Hc & ->) | [(Hc & Hu & ->) | [(Hc & Hu & He & msg & ->)
       | [(Hc & Hu & He & Hne & Hnin & Hf & msg & ->)
       | (Hc & Hu & He & Hor & msg & ->)]]]]; cbn [settings_after].
  - split; [by left|]. split; [done | by left].
  - split; [by left|]. split; [done | by left].
  - rewrite Hex. split; [by left|]. split; [done | by apply Hen].
  - rewrite Hex. split; [by left|]. split; [done | by apply Hen].
  - cbn [core_exclude core_enable]. split; [by right|]. split; [|by apply Hen].
    intros Hnd. apply NoDup_app. split; [done|].
    split; [|apply NoDup_singleton].
    intros x Hx Hx'. apply list_elem_of_singleton in Hx'. by subst.
Qed.

Lemma disable_appends_once_witness :
  NoDup (core_exclude
           (settings_after
              (handle_disable (mkDisableOptions (py "tld") false false)
                              [(py "tld", true); (py "wiki", false)]
                              (mkSettings [] [py "wiki"])))).
Proof.
  apply (disable_appends_once (mkDisableOptions (py "tld") false false)
           [(py "tld", true); (py "wiki", false)] (mkSettings [] [py "wiki"])).
  apply NoDup_singleton.
Defined.

(** X25: with [--force], a usable plugin other than [coretasks] is in the
    exclusion list when [handle_disable] is done, and the settings the
    handler leaves are the ones it last saved, unless it changed nothing. *)
Theorem disable_forced_excludes (options : DisableOptions)
    (usable : list (pystr * bool)) (settings : Settings) :
  opt_name options <> py "coretasks" ->
  opt_name options ∈ usable.*1 ->
  opt_force options = true ->
  let run := handle_disable options usable settings in
  opt_name options ∈ core_exclude (settings_after run)
  /\ (settings_after run = settings
      \/ exists before after,
           effects run = before ++ Save (settings_after run) :: after
           /\ forall s, Save s ∉ after).
Proof.
  intros Hc Hu Hf run. subst run.
  assert (Hex : forall b : bool,
             core_exclude
               (if b
                then mkSettings (filter (fun n => n <> opt_name options)
                                        (core_enable settings))
                                (core_exclude settings)
                else settings)
             = core_exclude settings).
  { by intros [|]. }
  destruct (handle_disable_cases options usable settings)
    as [(Hc' & _) | [(_ & Hu' & _) | [(_ & _ & He & msg & ->)
       | [(_ & _ & He & Hne & Hnin & Hf' & msg & ->)
       | (_ & _ & He & Hor & msg & ->)]]]]; cbn [settings_after effects];
    try done; try congruence.
  - rewrite Hex. split; [done|].
    destruct (opt_remove options && _); [|by left]. right.
    eexists [], [_]. split; [done|]. intros s Hin.
    apply list_elem_of_singleton in Hin. discriminate.
  - cbn [core_exclude]. split; [apply elem_of_app; right; by left|]. right.
    eexists _, [_]. split.
    + reflexivity.
    + intros s Hin. apply list_elem_of_singleton in Hin. discriminate.
Qed.

Lemma disable_forced_excludes_witness :
  py "tld"
  ∈ core_exclude
      (settings_after
         (handle_disable (mkDisableOptions (py "tld") true false)
                         [(py "coretasks", true); (py "tld", false)]
                         (mkSettings [py "admin"] []))).
Proof.
  apply (disable_forced_excludes (mkDisableOptions (py "tld") true false)
           [(py "coretasks", true); (py "tld", false)]
           (mkSettings [py "admin"] [])).
  - discriminate.
  - right. left.
  - reflexivity.
Defined.

(** Settings on which [handle_disable] has nothing left to do. *)
Lemma handle_disable_settled (options : DisableOptions)
    (usable : list (pystr * bool)) (s : Settings) :
  opt_name options <> py "coretasks" ->
  opt_name options ∈ usable.*1 ->
  (opt_remove options = true -> opt_name options ∉ core_enable s) ->
  (opt_name options ∈ core_exclude s)
  \/ (core_enable s <> [] /\ (opt_name options ∉ core_enable s)
      /\ opt_force options = false) ->
  exists msg,
    handle_disable options usable s = mkCliRun (Some 0%Z) [Stderr msg] s.
Proof.
  intros Hc Hu Hrem Hdone.
  assert (Hr : opt_remove options
               && bool_decide (opt_name options ∈ core_enable s) = false).
  { destruct (opt_remove options); [|done].
    by rewrite bool_decide_eq_false_2 by by apply Hrem. }
  destruct (handle_disable_cases options usable s)
    as [(Hc' & _) | [(_ & Hu' & _) | [(_ & _ & He & msg & E)
       | [(_ & _ & He & Hne & Hnin & Hf' & msg & E)
       | (_ & _ & He & Hor & msg & E)]]]]; try done;
    rewrite Hr in *; cbn [app] in E.
  - by exists msg.
  - by exists msg.
  - destruct Hdone as [?|(Hne & Hnin & Hf)]; [done|].
    destruct Hor as [?|[?|?]]; [done | done | congruence].
Qed.

(** X26: [handle_disable] is idempotent: run again with the same options
    and the same usable plugins on the settings it left, it saves nothing
    and leaves them as they are, and it returns 0 unless it returned 1 the
    first time. *)
Theorem disable_idempotent (options : DisableOptions)
    (usable : list (pystr * bool)) (settings : Settings) :
  let first := handle_disable options usable settings in
  let second := handle_disable options usable (settings_after first) in
  settings_after second = settings_after first
  /\ (forall s, Save s ∉ effects second)
  /\ (returned first <> Some 1%Z -> returned second = Some 0%Z).
Proof.
  intros first second. subst second.
  assert (Hsettled : forall s,
             (exists msg,
                handle_disable options usable s
                = mkCliRun (Some 0%Z) [Stderr msg] s) ->
             settings_after (handle_disable options usable s) = s
             /\ (forall s', Save s' ∉ effects (handle_disable options usable s))
             /\ (returned first <> Some 1%Z ->
                 returned (handle_disable options usable s) = Some 0%Z)).
  { intros s [msg ->]. split; [done|]. split; [|done]. intros s' Hin.
    apply list_elem_of_singleton in Hin. discriminate. }
  pose proof (handle_disable_cases options usable settings) as Hcases.
  cbv zeta in Hcases.
  set (s1 := if opt_remove options
                && bool_decide (opt_name options ∈ core_enable settings)
             then mkSettings (filter (fun n => n <> opt_name options)
                                     (core_enable settings))
                             (core_exclude settings)
             else settings) in *.
  assert (Hen1 : opt_remove options = true ->
                 opt_name options ∉ core_enable s1).
  { intros Hr. subst s1. rewrite Hr. cbn [andb].
    destruct (decide (opt_name options ∈ core_enable settings)).
    - rewrite bool_decide_eq_true_2 by done. cbn [core_enable].
      intros Hin. by apply list_elem_of_filter in Hin as [? _].
    - by rewrite bool_decide_eq_false_2. }
  assert (Hex1 : core_exclude s1 = core_exclude settings).
  { subst s1. by destruct (opt_remove options && _). }
  fold first in Hcases.
  destruct Hcases
    as [(Hc & E) | [(Hc & Hu & E) | [(Hc & Hu & He & msg & E)
       | [(Hc & Hu & He & Hne & Hnin & Hf & msg & E)
       | (Hc & Hu & He & Hor & msg & E)]]]]; rewrite E; cbn [settings_after].
  - fold first. rewrite E. cbn [settings_after effects returned].
    split; [done|]. split; [|done]. intros s Hin.
    apply list_elem_of_singleton in Hin. discriminate.
  - fold first. rewrite E. cbn [settings_after effects returned].
    split; [done|]. split; [|done]. intros s Hin.
    apply list_elem_of_singleton in Hin. discriminate.
  - rewrite <- E. apply Hsettled.
    apply handle_disable_settled; [done | done | done |].
    left. by rewrite Hex1.
  - rewrite <- E. apply Hsettled.
    apply handle_disable_settled; [done | done | done |].
    right. by split.
  - rewrite <- E. apply Hsettled.
    apply handle_disable_settled; [done | done | done |].
    left. cbn [core_exclude]. apply elem_of_app. right. by left.
Qed.

Lemma disable_idempotent_witness :
  returned
    (handle_disable (mkDisableOptions (py "tld") false true)
       [(py "tld", true)]
       (settings_after
          (handle_disable (mkDisableOptions (py "tld") false true)
                          [(py "tld", true)]
                          (mkSettings [py "tld"; py "wiki"] []))))
  = Some 0%Z.
Proof.
  apply (disable_idempotent (mkDisableOptions (py "tld") false true)
           [(py "tld", true)] (mkSettings [py "tld"; py "wiki"] [])).
  vm_compute. discriminate.
Defined.

Lemma names_of_omap (f : pystr * bool -> option listed)
    (P : pystr * bool -> Prop) `{!forall i, Decision (P i)}
    (usable : list (pystr * bool)) :
  (forall i, P i -> exists l, f i = Some l /\ listed_name l = i.1) ->
  (forall i, ~ P i -> f i = None) ->
  listed_name <$> omap f usable = (filter P usable).*1.
Proof.
  intros Hyes Hno. induction usable as [|i usable IH]; [done|].
  cbn [omap list_omap]. destruct (decide (P i)) as [Hi|Hi].
  - destruct (Hyes i Hi) as (l & -> & Hl). rewrite filter_cons_True by done.
    rewrite !fmap_cons, Hl. f_equal. exact IH.
  - rewrite (Hno i Hi), filter_cons_False by done. exact IH.
Qed.

(** X27: [handle_list] prints the usable plugins in their order: all of
    them without a filter, exactly the enabled ones with [--enabled-only],
    exactly the disabled ones with [--disabled-only]; so the two filtered
    listings together are the unfiltered one, up to order. *)
Theorem list_filters_split (no_color : bool) (usable : list (pystr * bool)) :
  listed_name <$> handle_list (mkListOptions no_color false false) usable
  = usable.*1
  /\ listed_name <$> handle_list (mkListOptions no_color true false) usable
     = (filter (fun info => info.2 = true) usable).*1
  /\ listed_name <$> handle_list (mkListOptions no_color false true) usable
     = (filter (fun info => info.2 = false) usable).*1
  /\ (listed_name <$> handle_list (mkListOptions no_color true false) usable)
     ++ (listed_name <$> handle_list (mkListOptions no_color false true) usable)
     ≡ₚ listed_name <$> handle_list (mkListOptions no_color false false) usable.
Proof.
  assert (Hall : listed_name
                 <$> handle_list (mkListOptions no_color false false) usable
                 = usable.*1).
  { unfold handle_list.
    rewrite (names_of_omap _ (fun _ => True)).
    - f_equal. induction usable as [|i usable IH]; [done|].
      rewrite filter_cons_True by done. by rewrite IH.
    - intros [name [|]] _; destruct no_color; by eexists.
    - intros i Hi. by destruct Hi. }
  assert (Hen : listed_name
                <$> handle_list (mkListOptions no_color true false) usable
                = (filter (fun info => info.2 = true) usable).*1).
  { unfold handle_list. apply names_of_omap.
    - intros [name [|]] Hi; [|done]. destruct no_color; by eexists.
    - intros [name [|]] Hi; [by destruct Hi | done]. }
  assert (Hdis : listed_name
                 <$> handle_list (mkListOptions no_color false true) usable
                 = (filter (fun info => info.2 = false) usable).*1).
  { unfold handle_list. apply names_of_omap.
    - intros [name [|]] Hi; [done|]. destruct no_color; by eexists.
    - intros [name [|]] Hi; [done | by destruct Hi]. }
  split; [done|]. split; [done|]. split; [done|].
  rewrite Hall, Hen, Hdis, <- fmap_app. apply fmap_Permutation.
  clear. induction usable as [|[name [|]] usable IH]; [done | |].
  - rewrite filter_cons_True by done. rewrite filter_cons_False by done.
    cbn [app]. by constructor.
  - rewrite filter_cons_False by done. rewrite filter_cons_True by done.
    rewrite <- Permutation_middle. by constructor.
Qed.
